(** * Market research scout: scoring, ranking and board reconciliation

    A shallow embedding of [tools/agents/market_research_scout.py] and the
    properties its specification states about it.

    Conventions of the embedding
    - Python [str] values are [string]s of 8-bit characters; the code points
      above 127 that a feed can carry are outside the model (they only matter
      to [str.lower], which is modelled on ASCII letters).
    - A [datetime] is the number of microseconds since the Unix epoch (UTC),
      a [timedelta] a number of microseconds; both are [Z].
    - Python [int] is [Z].
    - A Python [dict] is an association list in insertion order with unique
      keys ([dict_set] overwrites in place or appends). *)

From Stdlib Require Import ZArith Ascii String List Lia Bool Sorted.
From Stdlib Require Import DecimalString DecimalZ.
From stdpp Require Import base option list strings gmap.

Local Open Scope string_scope.
Local Open Scope list_scope.
Local Open Scope Z_scope.

(** ** Python strings *)

(** The line feed and the double quote. *)
Definition nl : string := String "010" "".
Definition dquote : ascii := "034"%char.

Module PyStr.

Definition lower_ascii (c : ascii) : ascii :=
  let n := nat_of_ascii c in
  if ((65 <=? n) && (n <=? 90))%nat then ascii_of_nat (n + 32) else c.

(** [str.lower()] *)
Fixpoint lower (s : string) : string :=
  match s with
  | EmptyString => EmptyString
  | String c r => String (lower_ascii c) (lower r)
  end.

(** [needle in hay] *)
Fixpoint contains (needle hay : string) : bool :=
  String.prefix needle hay ||
  match hay with
  | EmptyString => false
  | String _ r => contains needle r
  end.

(** [sep.join(parts)] *)
Definition join (sep : string) (parts : list string) : string :=
  String.concat sep parts.

End PyStr.

(** ** Python dictionaries *)

Section PyDict.
Context {V : Type}.

(** [d.get(k)] *)
Fixpoint dict_get (k : string) (d : list (string * V)) : option V :=
  match d with
  | [] => None
  | (k', v) :: r => if String.eqb k k' then Some v else dict_get k r
  end.

(** [d[k] = v] *)
Fixpoint dict_set (k : string) (v : V) (d : list (string * V)) : list (string * V) :=
  match d with
  | [] => [(k, v)]
  | (k', v') :: r =>
      if String.eqb k k' then (k, v) :: r else (k', v') :: dict_set k v r
  end.

(** [k in d] *)
Definition dict_mem (k : string) (d : list (string * V)) : bool :=
  match dict_get k d with Some _ => true | None => false end.
End PyDict.

(** ** Tables *)

Definition KEYWORD_WEIGHTS : list (string * (list string * Z)) :=
  [ ("pricing", (["pricing"; "price"; "billing"; "subscription"; "usage-based"; "seat"], 4));
    ("ai_automation", (["ai"; "agent"; "automation"; "copilot"; "llm"; "assistant"], 4));
    ("developer_workflow", (["release"; "changelog"; "github"; "workflow"; "developer"; "devops"], 3));
    ("compliance", (["security"; "compliance"; "soc2"; "audit"; "gdpr"; "hipaa"], 3));
    ("go_to_market", (["growth"; "distribution"; "marketplace"; "partnership"; "channel"], 2)) ].

Record Playbook := {
  pb_opportunity : string;
  pb_plan : string;
  pb_experiment : string
}.

Definition PLAYBOOK_BY_CATEGORY : list (string * Playbook) :=
  [ ("pricing",
     {| pb_opportunity := "Pricing and packaging differentiation";
        pb_plan := "Evaluate a usage-metered or annual-commit package variant for ReleaseMind PaaS.";
        pb_experiment := "Run a pricing-page A/B copy test with value metric framing and monitor conversion intent." |});
    ("ai_automation",
     {| pb_opportunity := "AI-first release operations lane";
        pb_plan := "Package AI-assisted release generation and post-publish QA checks as a premium workflow.";
        pb_experiment := "Build one AI workflow add-on and test adoption with existing active users." |});
    ("developer_workflow",
     {| pb_opportunity := "Developer workflow integration expansion";
        pb_plan := "Prioritize tighter GitHub/CI integration with faster release-note draft loops.";
        pb_experiment := "Ship one integration enhancement and track week-over-week usage lift." |});
    ("compliance",
     {| pb_opportunity := "Compliance-ready release communications";
        pb_plan := "Productize audit-grade release evidence and governance controls for enterprise buyers.";
        pb_experiment := "Prototype a compliance export view and collect design-partner feedback." |});
    ("go_to_market",
     {| pb_opportunity := "Channel and distribution growth";
        pb_plan := "Expand marketplace/distribution footprints and partner-aligned onboarding assets.";
        pb_experiment := "Launch one distribution channel experiment and measure qualified signup rate." |});
    ("general",
     {| pb_opportunity := "Emerging market signal";
        pb_plan := "Capture this signal in backlog and validate impact against current roadmap themes.";
        pb_experiment := "Interview 3 target users to validate urgency and willingness to pay." |}) ].

(** ** Data model *)

Record FeedItem := {
  title : string;
  link : string;
  published_at : option Z;
  source_feed : string
}.

Record Opportunity := {
  item : FeedItem;
  score : Z;
  category : string;
  matched_terms : list string
}.

(** ** Scorer *)

Definition days (n : Z) : Z := n * 86400 * 1000000.

(** [sorted(set(l))] on strings: the distinct elements in ascending order. *)
Fixpoint insert_sorted (x : string) (l : list string) : list string :=
  match l with
  | [] => [x]
  | y :: r =>
      if String.eqb x y then l
      else if String.ltb x y then x :: l
      else y :: insert_sorted x r
  end.

Definition sorted_set (l : list string) : list string :=
  fold_right insert_sorted [] l.

(** The inner loop of [score_item]: one pass over the terms of a category. *)
Definition scan_terms (text : string) (weight : Z) (terms : list string)
    (matched : list string) : Z * list string :=
  fold_left
    (fun '(cat_score, matched) term =>
       if PyStr.contains term text
       then (cat_score + weight, matched ++ [term])
       else (cat_score, matched))
    terms (0, matched).

(** The outer loop: [(total, category_scores, matched_terms)] after the
    categories of the table have been visited in order. *)
Definition scan_categories (text : string)
    (table : list (string * (list string * Z)))
    : Z * list (string * Z) * list string :=
  fold_left
    (fun '(total, category_scores, matched) '(category, (terms, weight)) =>
       let '(cat_score, matched') := scan_terms text weight terms matched in
       if 0 <? cat_score
       then (total + cat_score, dict_set category cat_score category_scores, matched')
       else (total, category_scores, matched'))
    table (0, [], []).

(** The recency bonus, from the reading [now] of the clock. *)
Definition recency_bonus (now : Z) (published : option Z) : Z :=
  match published with
  | Some p =>
      let age := now - p in
      if age <=? days 7 then 3
      else if age <=? days 30 then 1
      else 0
  | None => 0
  end.

(** [max(items, key=lambda x: x[1])]: the first item whose key is maximal. *)
Definition py_max_by_snd (first : string * Z) (rest : list (string * Z)) : string * Z :=
  fold_left (fun best x => if snd best <? snd x then x else best) rest first.

Definition pick_category (category_scores : list (string * Z)) : string :=
  match category_scores with
  | [] => "general"
  | x :: r => fst (py_max_by_snd x r)
  end.

Definition item_text (it : FeedItem) : string :=
  PyStr.lower (title it +:+ " " +:+ link it).

Definition keyword_total (it : FeedItem) : Z :=
  fst (fst (scan_categories (item_text it) KEYWORD_WEIGHTS)).

Definition category_scores_of (it : FeedItem) : list (string * Z) :=
  snd (fst (scan_categories (item_text it) KEYWORD_WEIGHTS)).

Definition total_score (now : Z) (it : FeedItem) : Z :=
  keyword_total it + recency_bonus now (published_at it).

(** [score_item], with [now] the value [now_utc()] returns when the item has
    a publish date (the clock is not read otherwise). *)
Definition score_item (now : Z) (it : FeedItem) : option Opportunity :=
  let '(total, category_scores, matched) :=
    scan_categories (item_text it) KEYWORD_WEIGHTS in
  let total := total + recency_bonus now (published_at it) in
  if total <? 4 then None
  else Some {| item := it;
               score := total;
               category := pick_category category_scores;
               matched_terms := sorted_set matched |}.

(** The keyword contribution of one table entry, counted directly: its
    weight once for each of its terms that occurs in the text. *)
Definition term_hits (text : string) (terms : list string) : list string :=
  List.filter (fun term => PyStr.contains term text) terms.

Definition cat_score (text : string) (entry : string * (list string * Z)) : Z :=
  snd (snd entry) * Z.of_nat (length (term_hits text (fst (snd entry)))).

Definition sum_Z (l : list Z) : Z := fold_right Z.add 0 l.

(** The categories that matched, with their scores, in table order. *)
Definition positive_scores (text : string)
    (table : list (string * (list string * Z))) : list (string * Z) :=
  List.filter (fun p => 0 <? snd p)
    (map (fun e => (fst e, cat_score text e)) table).

(** Every term of the keyword table. *)
Definition all_terms : list string :=
  concat (map (fun e : string * (list string * Z) => fst (snd e)) KEYWORD_WEIGHTS).

Definition ex_item_pricing : FeedItem :=
  {| title := "Launch week"; link := "https://example.com/pricing";
     published_at := None; source_feed := "https://example.com/feed" |}.

(** Matches two pricing terms (seat, billing) and two ai_automation terms
    (copilot, agent): both categories accumulate 8. *)
Definition ex_item_tie : FeedItem :=
  {| title := "Seat billing for your copilot agent";
     link := "https://example.com/post";
     published_at := None; source_feed := "https://example.com/feed" |}.

(** ** Ranking *)

(** [int(op.item.published_at.timestamp()) if op.item.published_at else 0]:
    whole seconds since the epoch, truncated towards zero. (The feed parser
    only produces whole-second dates, on which the float that [timestamp()]
    returns is exact.) *)
Definition epoch_seconds (op : Opportunity) : Z :=
  match published_at (item op) with
  | Some p => Z.quot p 1000000
  | None => 0
  end.

(** The sort key of [main]: [(-op.score, -epoch_seconds)]. *)
Definition sort_key (op : Opportunity) : Z * Z :=
  (- score op, - epoch_seconds op).

(** Python's [<] on pairs of integers. *)
Definition key_ltb (a b : Z * Z) : bool :=
  (fst a <? fst b) || ((fst a =? fst b) && (snd a <? snd b)).

Definition key_eqb (a b : Z * Z) : bool :=
  (fst a =? fst b) && (snd a =? snd b).

(** [list.sort(key=...)] is a stable sort: it is modelled by the insertion
    sort that puts an element in front of the first element of the sorted
    tail whose key is not smaller. *)
Fixpoint insert_by_key (x : Opportunity) (l : list Opportunity) : list Opportunity :=
  match l with
  | [] => [x]
  | y :: r =>
      if key_ltb (sort_key y) (sort_key x) then y :: insert_by_key x r
      else x :: l
  end.

Definition sort_opportunities (l : list Opportunity) : list Opportunity :=
  fold_right insert_by_key [] l.

(** [opportunities[: max(0, n)]] *)
Definition take_top (n : Z) (l : list Opportunity) : list Opportunity :=
  take (Z.to_nat (Z.max 0 n)) l.


Definition ex_item_undated : FeedItem :=
  {| title := "Pricing news"; link := "https://b.example.com/2";
     published_at := None; source_feed := "https://b.example.com/feed" |}.

Definition ex_item_dated : FeedItem :=
  {| title := "Pricing notes"; link := "https://c.example.com/3";
     published_at := Some 1600000000000000;
     source_feed := "https://c.example.com/feed" |}.

(** 2023-11-14T22:13:20Z *)
Definition ex_now : Z := 1700000000000000.


(** ** Numbers and dates as text *)

(** [str(n)] for an integer. *)
Definition str_of_Z (n : Z) : string :=
  DecimalString.NilZero.string_of_int (Z.to_int n).

Fixpoint zeros (n : nat) : string :=
  match n with O => "" | S n => String "0" (zeros n) end.

(** [f"{n:0{width}d}"] for a non-negative [n]. *)
Definition pad_Z (width : nat) (n : Z) : string :=
  let s := str_of_Z n in
  zeros (width - String.length s) +:+ s.

(** The civil date of a day number counted from 1970-01-01 (proleptic
    Gregorian calendar, as [datetime] has it). *)
Definition civil_from_days (z : Z) : Z * Z * Z :=
  let z := z + 719468 in
  let era := z / 146097 in
  let doe := z - era * 146097 in
  let yoe := (doe - doe / 1460 + doe / 36524 - doe / 146096) / 365 in
  let doy := doe - (365 * yoe + yoe / 4 - yoe / 100) in
  let mp := (5 * doy + 2) / 153 in
  let d := doy - (153 * mp + 2) / 5 + 1 in
  let m := if mp <? 10 then mp + 3 else mp - 9 in
  let y := yoe + era * 400 + (if m <=? 2 then 1 else 0) in
  (y, m, d).

Definition usec_per_day : Z := 86400 * 1000000.

(** [dt.date().isoformat()] *)
Definition date_isoformat (dt : Z) : string :=
  let '(y, m, d) := civil_from_days (dt / usec_per_day) in
  pad_Z 4 y +:+ "-" +:+ pad_Z 2 m +:+ "-" +:+ pad_Z 2 d.

(** [dt.strftime('%Y%m%d')] *)
Definition strftime_Ymd (dt : Z) : string :=
  let '(y, m, d) := civil_from_days (dt / usec_per_day) in
  pad_Z 4 y +:+ pad_Z 2 m +:+ pad_Z 2 d.

(** [dt.isoformat()] for a timezone-aware datetime in UTC. *)
Definition isoformat (dt : Z) : string :=
  let us := dt mod usec_per_day in
  let secs := us / 1000000 in
  let frac := us mod 1000000 in
  date_isoformat dt +:+ "T" +:+
  pad_Z 2 (secs / 3600) +:+ ":" +:+ pad_Z 2 (secs / 60 mod 60) +:+ ":" +:+
  pad_Z 2 (secs mod 60) +:+
  (if frac =? 0 then "" else "." +:+ pad_Z 6 frac) +:+ "+00:00".

(** ** SHA-1, for [stable_id] *)

Module Sha1.

Definition w32 (x : Z) : Z := x mod 2 ^ 32.

Definition rotl (n x : Z) : Z :=
  w32 (Z.lor (Z.shiftl x n) (Z.shiftr x (32 - n))).

(** UTF-8 bytes of a string whose characters are code points below 256. *)
Fixpoint utf8 (s : string) : list Z :=
  match s with
  | EmptyString => []
  | String c r =>
      let n := Z.of_nat (nat_of_ascii c) in
      if n <? 128 then n :: utf8 r
      else Z.lor 192 (Z.shiftr n 6) :: Z.lor 128 (Z.land n 63) :: utf8 r
  end.

Definition be_bytes (count : nat) (x : Z) : list Z :=
  map (fun i => Z.land (Z.shiftr x (8 * Z.of_nat i)) 255) (rev (seq 0 count)).

Definition pad (msg : list Z) : list Z :=
  let len := Z.of_nat (length msg) in
  let k := Z.to_nat ((55 - len) mod 64) in
  msg ++ [128] ++ repeat 0 k ++ be_bytes 8 (8 * len).

Fixpoint words (fuel : nat) (bytes : list Z) : list Z :=
  match fuel, bytes with
  | S fuel, a :: b :: c :: d :: r =>
      (Z.shiftl a 24 + Z.shiftl b 16 + Z.shiftl c 8 + d) :: words fuel r
  | _, _ => []
  end.

(** The message schedule, newest word first. *)
Fixpoint schedule (n : nat) (w : list Z) : list Z :=
  match n with
  | O => w
  | S n =>
      let x := Z.lxor (Z.lxor (nth 2 w 0) (nth 7 w 0))
                      (Z.lxor (nth 13 w 0) (nth 15 w 0)) in
      schedule n (rotl 1 x :: w)
  end.

Definition round (t : nat) (st : Z * Z * Z * Z * Z) (wt : Z) : Z * Z * Z * Z * Z :=
  let '(a, b, c, d, e) := st in
  let '(f, k) :=
    if (t <? 20)%nat then
      (Z.lor (Z.land b c) (Z.land (Z.lxor b 4294967295) d), 1518500249)
    else if (t <? 40)%nat then (Z.lxor (Z.lxor b c) d, 1859775393)
    else if (t <? 60)%nat then
      (Z.lor (Z.lor (Z.land b c) (Z.land b d)) (Z.land c d), 2400959708)
    else (Z.lxor (Z.lxor b c) d, 3395469782) in
  (w32 (rotl 5 a + f + e + k + wt), a, rotl 30 b, c, d).

Fixpoint rounds (t : nat) (ws : list Z) (st : Z * Z * Z * Z * Z) : Z * Z * Z * Z * Z :=
  match ws with
  | [] => st
  | wt :: ws => rounds (S t) ws (round t st wt)
  end.

Definition block (st : Z * Z * Z * Z * Z) (w16 : list Z) : Z * Z * Z * Z * Z :=
  let '(a, b, c, d, e) := st in
  let '(a', b', c', d', e') := rounds 0 (rev (schedule 64 (rev w16))) st in
  (w32 (a + a'), w32 (b + b'), w32 (c + c'), w32 (d + d'), w32 (e + e')).

Fixpoint blocks (fuel : nat) (ws : list Z) (st : Z * Z * Z * Z * Z) : Z * Z * Z * Z * Z :=
  match fuel with
  | O => st
  | S fuel =>
      match ws with
      | [] => st
      | _ => blocks fuel (drop 16 ws) (block st (take 16 ws))
      end
  end.

Definition hex_digit (n : Z) : ascii :=
  ascii_of_nat (Z.to_nat (if n <? 10 then 48 + n else 87 + n)).

Fixpoint hex_of_bytes (bytes : list Z) : string :=
  match bytes with
  | [] => ""
  | b :: r => String (hex_digit (Z.shiftr b 4)) (String (hex_digit (Z.land b 15)) (hex_of_bytes r))
  end.

(** [hashlib.sha1(s.encode("utf-8")).hexdigest()] *)
Definition hexdigest (s : string) : string :=
  let bytes := pad (utf8 s) in
  let ws := words (length bytes) bytes in
  let '(a, b, c, d, e) :=
    blocks (length ws) ws
      (1732584193, 4023233417, 2562383102, 271733878, 3285377520) in
  hex_of_bytes (be_bytes 4 a ++ be_bytes 4 b ++ be_bytes 4 c ++ be_bytes 4 d ++ be_bytes 4 e).

End Sha1.

(** [s[:n]] *)
Fixpoint str_take (n : nat) (s : string) : string :=
  match n, s with
  | S n, String c r => String c (str_take n r)
  | _, _ => ""
  end.

Definition stable_id (link : string) : string :=
  "mr-" +:+ str_take 10 (Sha1.hexdigest link).


(** [slugify]: lower-case, every run of characters outside [a-z0-9]
    replaced by one hyphen, hyphens stripped at both ends, at most 72
    characters, and a default when nothing is left. *)
Definition is_slug_char (c : ascii) : bool :=
  let n := nat_of_ascii c in
  (((97 <=? n) && (n <=? 122)) || ((48 <=? n) && (n <=? 57)))%nat.

(** [re.sub(r"[^a-z0-9]+", "-", s)]; [in_run] tells that the previous
    character already belongs to the run being replaced. *)
Fixpoint collapse_runs (in_run : bool) (s : string) : string :=
  match s with
  | EmptyString => ""
  | String c r =>
      if is_slug_char c then String c (collapse_runs false r)
      else if in_run then collapse_runs true r
      else String "-" (collapse_runs true r)
  end.

Fixpoint lstrip_char (c : ascii) (s : string) : string :=
  match s with
  | EmptyString => ""
  | String c' r => if Ascii.eqb c c' then lstrip_char c r else s
  end.

(** [s.rstrip(c)]: the result is empty exactly when only [c]s remain. *)
Fixpoint rstrip_char (c : ascii) (s : string) : string :=
  match s with
  | EmptyString => ""
  | String c' r =>
      match rstrip_char c r with
      | EmptyString => if Ascii.eqb c c' then "" else String c' ""
      | r' => String c' r'
      end
  end.

Definition slugify (value : string) : string :=
  let slug := rstrip_char "-" (lstrip_char "-" (collapse_runs false (PyStr.lower value))) in
  match str_take 72 slug with
  | EmptyString => "market-opportunity"
  | s => s
  end.

(** ** JSON values *)

#[local] Set Warnings "-register-all".

Inductive json :=
| JNull
| JBool (b : bool)
| JInt (n : Z)
| JStr (s : string)
| JArr (items : list json)
| JObj (fields : list (string * json)).

(** Truth value of a JSON value in a Python condition. *)
Definition py_truthy (v : json) : bool :=
  match v with
  | JNull => false
  | JBool b => b
  | JInt n => negb (n =? 0)
  | JStr s => negb (String.eqb s "")
  | JArr l => match l with [] => false | _ => true end
  | JObj d => match d with [] => false | _ => true end
  end.

(** Python's [==] on JSON values: [True == 1], dictionaries compare as
    mappings, everything else structurally. *)
Fixpoint py_eqb (a b : json) {struct a} : bool :=
  match a, b with
  | JNull, JNull => true
  | JBool x, JBool y => Bool.eqb x y
  | JBool x, JInt n | JInt n, JBool x => n =? (if x then 1 else 0)
  | JInt n, JInt m => n =? m
  | JStr s, JStr t => String.eqb s t
  | JArr la, JArr lb =>
      (fix go (la lb : list json) {struct la} : bool :=
         match la, lb with
         | [], [] => true
         | x :: la, y :: lb => py_eqb x y && go la lb
         | _, _ => false
         end) la lb
  | JObj da, JObj db =>
      (length da =? length db)%nat &&
      (fix go (da : list (string * json)) : bool :=
         match da with
         | [] => true
         | (k, v) :: da =>
             match dict_get k db with
             | Some v' => py_eqb v v'
             | None => false
             end && go da
         end) da
  | _, _ => false
  end.

Definition hex4 (n : Z) : string :=
  String (Sha1.hex_digit (Z.shiftr n 12 mod 16))
    (String (Sha1.hex_digit (Z.shiftr n 8 mod 16))
       (String (Sha1.hex_digit (Z.shiftr n 4 mod 16))
          (String (Sha1.hex_digit (n mod 16)) ""))).

Definition hex2 (n : Z) : string :=
  String (Sha1.hex_digit (Z.shiftr n 4 mod 16))
    (String (Sha1.hex_digit (n mod 16)) "").

(** The escape of one character in a JSON string ([ensure_ascii] is on). *)
Definition json_escape_char (c : ascii) : string :=
  let n := Z.of_nat (nat_of_ascii c) in
  if n =? 34 then String "\" (String dquote "")
  else if n =? 92 then "\\"
  else if n =? 10 then "\n"
  else if n =? 13 then "\r"
  else if n =? 9 then "\t"
  else if n =? 8 then "\b"
  else if n =? 12 then "\f"
  else if (n <? 32) || (126 <? n) then "\u" +:+ hex4 n
  else String c "".

Fixpoint json_escape (s : string) : string :=
  match s with
  | EmptyString => ""
  | String c r => json_escape_char c +:+ json_escape r
  end.

Definition json_quote (s : string) : string :=
  String dquote (json_escape s +:+ String dquote "").

Fixpoint spaces (n : nat) : string :=
  match n with O => "" | S n => String " " (spaces n) end.

(** Start of a line at nesting depth [level] ([indent=2]). *)
Definition newline_indent (level : nat) : string :=
  nl +:+ spaces (2 * level).

(** [json.dumps(v, indent=2)], at nesting depth [level]. *)
Fixpoint json_dumps_at (level : nat) (v : json) {struct v} : string :=
  match v with
  | JNull => "null"
  | JBool true => "true"
  | JBool false => "false"
  | JInt n => str_of_Z n
  | JStr s => json_quote s
  | JArr [] => "[]"
  | JArr (x :: r) =>
      "[" +:+ newline_indent (S level) +:+ json_dumps_at (S level) x +:+
      (fix go (r : list json) : string :=
         match r with
         | [] => ""
         | y :: r =>
             "," +:+ newline_indent (S level) +:+ json_dumps_at (S level) y +:+ go r
         end) r +:+
      newline_indent level +:+ "]"
  | JObj [] => "{}"
  | JObj ((k, x) :: r) =>
      "{" +:+ newline_indent (S level) +:+ json_quote k +:+ ": " +:+
      json_dumps_at (S level) x +:+
      (fix go (r : list (string * json)) : string :=
         match r with
         | [] => ""
         | (k, y) :: r =>
             "," +:+ newline_indent (S level) +:+ json_quote k +:+ ": " +:+
             json_dumps_at (S level) y +:+ go r
         end) r +:+
      newline_indent level +:+ "}"
  end.

Definition json_dumps (v : json) : string := json_dumps_at 0 v.

(** ** Exceptions and the file system *)

(** The exceptions the run can die of. [Unmodelled] is not a Python
    exception: it marks the inputs on which the embedding says nothing
    (values of unexpected JSON types reaching a format string or a sort
    key). *)
Inductive exn :=
| AttributeError
| TypeError
| KeyError
| ValueError
| OSError
| UnicodeDecodeError
| Unmodelled.

Inductive res (A : Type) :=
| Ok (a : A)
| Raise (e : exn).
Arguments Ok {A} a.
Arguments Raise {A} e.

#[export] Instance res_ret : MRet res := fun A a => Ok a.
#[export] Instance res_bind : MBind res := fun A B f m =>
  match m with Ok a => f a | Raise e => Raise e end.

(** What a path names: a text file, a file whose bytes [read_text] cannot
    decode, or a directory. Paths are relative to the repository root and in
    normal form; parent directories are created on demand and never fail. *)
Inductive file :=
| Text (content : string)
| Undecodable
| Directory.

(** The state a run threads: the number of clock readings made so far and
    the files. *)
Record world := World {
  w_tick : nat;
  w_fs : gmap string file
}.

Definition M (A : Type) : Type := world -> res (A * world).

#[export] Instance M_ret : MRet M := fun A a w => Ok (a, w).
#[export] Instance M_bind : MBind M := fun A B f m w =>
  match m w with Ok (a, w') => f a w' | Raise e => Raise e end.

Definition lift {A} (r : res A) : M A :=
  fun w => match r with Ok a => Ok (a, w) | Raise e => Raise e end.

(** [v.get(k, dflt)] *)
Definition py_get (v : json) (k : string) (dflt : json) : res json :=
  match v with
  | JObj d => Ok (match dict_get k d with Some x => x | None => dflt end)
  | _ => Raise AttributeError
  end.

(** [v[k]] with a string key *)
Definition py_index (v : json) (k : string) : res json :=
  match v with
  | JObj d => match dict_get k d with Some x => Ok x | None => Raise KeyError end
  | _ => Raise TypeError
  end.

Fixpoint chars_of (s : string) : list json :=
  match s with
  | EmptyString => []
  | String c r => JStr (String c "") :: chars_of r
  end.

(** The elements a [for] loop visits. *)
Definition py_iter (v : json) : res (list json) :=
  match v with
  | JArr l => Ok l
  | JStr s => Ok (chars_of s)
  | JObj d => Ok (map (fun kv => JStr (fst kv)) d)
  | _ => Raise TypeError
  end.

(** [str(v)] in a format string. *)
Definition py_str (v : json) : res string :=
  match v with
  | JStr s => Ok s
  | JNull => Ok "None"
  | JBool true => Ok "True"
  | JBool false => Ok "False"
  | JInt n => Ok (str_of_Z n)
  | _ => Raise Unmodelled
  end.

(** ** Rendering *)

Definition is_space (c : ascii) : bool :=
  let n := nat_of_ascii c in
  (((9 <=? n) && (n <=? 13)) || ((28 <=? n) && (n <=? 32))
   || (n =? 133) || (n =? 160))%nat.

(** [s.rstrip()] *)
Fixpoint rstrip (s : string) : string :=
  match s with
  | EmptyString => ""
  | String c r =>
      match rstrip r with
      | EmptyString => if is_space c then "" else String c ""
      | r' => String c r'
      end
  end.

(** [build_action_plan]: the playbook of the category, or the general one. *)
Definition general_playbook : Playbook :=
  {| pb_opportunity := "Emerging market signal";
     pb_plan := "Capture this signal in backlog and validate impact against current roadmap themes.";
     pb_experiment := "Interview 3 target users to validate urgency and willingness to pay." |}.

Definition playbook_of (category : string) : Playbook :=
  match dict_get category PLAYBOOK_BY_CATEGORY with
  | Some t => t
  | None => general_playbook
  end.

Definition build_action_plan (op : Opportunity) : json :=
  let template := playbook_of (category op) in
  JObj [ ("opportunity", JStr (pb_opportunity template));
         ("plan", JStr (pb_plan template));
         ("experiment", JStr (pb_experiment template)) ].

(** Python's [<] on pairs of strings. *)
Definition str_pair_ltb (a b : string * string) : bool :=
  String.ltb (fst a) (fst b) || (String.eqb (fst a) (fst b) && String.ltb (snd a) (snd b)).

Fixpoint insert_task (x : (string * string) * json) (l : list ((string * string) * json))
    : list ((string * string) * json) :=
  match l with
  | [] => [x]
  | y :: r =>
      if str_pair_ltb (fst y) (fst x) then y :: insert_task x r else x :: l
  end.

(** The key [(t.get("priority", "P3"), t.get("created_at", ""))] when both
    parts are strings. *)
Definition task_sort_key (t : json) : option (string * string) :=
  match py_get t "priority" (JStr "P3"), py_get t "created_at" (JStr "") with
  | Ok (JStr p), Ok (JStr c) => Some (p, c)
  | _, _ => None
  end.

(** [col_tasks.sort(key=...)]: a stable sort. Fewer than two tasks need no
    comparison; otherwise the keys must be pairs of strings. *)
Definition sort_col_tasks (l : list json) : res (list json) :=
  match l with
  | [] | [_] => Ok l
  | _ =>
      match mapM (fun t => k ← task_sort_key t; Some (k, t)) l with
      | Some keyed => Ok (map snd (fold_right insert_task [] keyed))
      | None => Raise Unmodelled
      end
  end.

(** [[t for t in tasks if t.get("status") == cid]] *)
Fixpoint tasks_with_status (cid : json) (tasks : list json) : res (list json) :=
  match tasks with
  | [] => Ok []
  | t :: r =>
      st ← py_get t "status" JNull;
      rest ← tasks_with_status cid r;
      Ok (if py_eqb st cid then t :: rest else rest)
  end.

Definition render_task (task : json) : res (list string) :=
  title ← py_get task "title" (JStr "Untitled");
  prio ← py_get task "priority" (JStr "P3");
  ticket ← py_get task "ticket_path" JNull;
  owner ← py_get task "owner" (JStr "market-agent");
  plan ← py_get task "action_plan" (JObj []);
  plan_text ← py_get plan "plan" (JStr "");
  prio_s ← py_str prio;
  title_s ← py_str title;
  owner_s ← py_str owner;
  workstream ← py_get task "workstream" (JStr "paas");
  workstream_s ← py_str workstream;
  ticket_line ←
    (if py_truthy ticket
     then s ← py_str ticket; Ok ["  - Ticket: `" +:+ s +:+ "`"]
     else Ok []);
  plan_line ←
    (if py_truthy plan_text
     then s ← py_str plan_text; Ok ["  - Plan: " +:+ s]
     else Ok []);
  Ok ([ "- **[" +:+ prio_s +:+ "] " +:+ title_s +:+ "**";
        "  - Owner: `" +:+ owner_s +:+ "`";
        "  - Workstream: `" +:+ workstream_s +:+ "`" ]
      ++ ticket_line ++ plan_line).

Fixpoint render_tasks (tasks : list json) : res (list string) :=
  match tasks with
  | [] => Ok []
  | t :: r =>
      lines ← render_task t;
      rest ← render_tasks r;
      Ok (lines ++ rest)
  end.

Definition render_column (tasks : json) (col : json) : res (list string) :=
  cid ← py_index col "id";
  cname ← py_index col "name";
  cname_s ← py_str cname;
  task_list ← py_iter tasks;
  col_tasks ← tasks_with_status cid task_list;
  match col_tasks with
  | [] => Ok ["## " +:+ cname_s; "- _(none)_"; ""]
  | _ =>
      sorted ← sort_col_tasks col_tasks;
      lines ← render_tasks sorted;
      Ok (["## " +:+ cname_s] ++ lines ++ [""])
  end.

Fixpoint render_columns (tasks : json) (cols : list json) : res (list string) :=
  match cols with
  | [] => Ok []
  | c :: r =>
      lines ← render_column tasks c;
      rest ← render_columns tasks r;
      Ok (lines ++ rest)
  end.

Definition render_board_markdown (board : json) : res string :=
  updated ← py_index board "updated_at";
  updated_s ← py_str updated;
  columns ← py_get board "columns" (JArr []);
  tasks ← py_get board "tasks" (JArr []);
  cols ← py_iter columns;
  body ← render_columns tasks cols;
  Ok (rstrip (PyStr.join nl
        (["# Shared Market Taskboard"; ""; "Updated: " +:+ updated_s; ""] ++ body))
      +:+ nl).

Definition published_text (it : FeedItem) : string :=
  match published_at it with
  | Some p => isoformat p
  | None => "unknown"
  end.

(** [create_ticket_content(op, task)] for the task that [main] has just
    built from [op]: its action plan is [build_action_plan op] and its
    workstream is paas. *)
Definition create_ticket_content (op : Opportunity) : string :=
  let plan := playbook_of (category op) in
  PyStr.join nl
    [ "# Market Opportunity: " +:+ title (item op);
      "";
      "- Source: " +:+ link (item op);
      "- Feed: " +:+ source_feed (item op);
      "- Published: " +:+ published_text (item op);
      "- Score: " +:+ str_of_Z (score op);
      "- Category: `" +:+ category op +:+ "`";
      "- Workstream: `paas`";
      "";
      "## Why this matters";
      pb_opportunity plan +:+ ".";
      "";
      "## Action plan";
      pb_plan plan;
      "";
      "## 7-day experiment";
      pb_experiment plan;
      "";
      "## Task checklist";
      "- [ ] Validate urgency with at least 3 target users";
      "- [ ] Define success metric and baseline";
      "- [ ] Prototype scope and estimate implementation effort";
      "- [ ] Decide go/no-go for PaaS backlog";
      "" ].

(** ** The run *)

(** The command line: paths relative to the repository root, in normal
    form, and the two caps. *)
Record Args := {
  board_json : string;
  board_md : string;
  report_dir : string;
  tickets_dir : string;
  summary_json : string;
  max_opportunities : Z;
  max_new_tickets : Z
}.

(** What [main] writes to the summary file. *)
Record Summary := {
  signals_scanned : nat;
  scored_opportunities : nat;
  top_opportunities : nat;
  new_tasks : Z;
  board_json_changed : bool;
  board_md_changed : bool;
  report_changed : bool;
  report_path : string;
  created_ticket_paths : list string;
  feed_errors : list string
}.

Definition summary_to_json (s : Summary) : json :=
  JObj [ ("status", JStr "ok");
         ("signals_scanned", JInt (Z.of_nat (signals_scanned s)));
         ("scored_opportunities", JInt (Z.of_nat (scored_opportunities s)));
         ("top_opportunities", JInt (Z.of_nat (top_opportunities s)));
         ("new_tasks", JInt (new_tasks s));
         ("board_json_changed", JBool (board_json_changed s));
         ("board_md_changed", JBool (board_md_changed s));
         ("report_changed", JBool (report_changed s));
         ("report_path", JStr (report_path s));
         ("created_ticket_paths", JArr (map JStr (created_ticket_paths s)));
         ("feed_errors", JArr (map JStr (feed_errors s))) ].

(** The state of the merge loop: the task list of the board (a JSON value:
    the loaded board decides its type), the index [existing_by_source] from
    link to the position of the task it refers to, and the two counters. *)
Record MergeState := {
  ms_tasks : json;
  ms_index : list (string * nat);
  ms_created : Z;
  ms_paths : list string
}.

Definition arr_items (v : json) : list json :=
  match v with JArr l => l | _ => [] end.

(** [v.append(x)] *)
Definition py_append (v : json) (x : json) : res json :=
  match v with
  | JArr l => Ok (JArr (l ++ [x]))
  | _ => Raise AttributeError
  end.

(** The dictionary comprehension that builds [existing_by_source], from
    position [i] on. A later task with the same link replaces the earlier
    one. Keys that are not strings never equal a link and are left out;
    lists and dictionaries cannot be keys at all. *)
Fixpoint index_tasks (i : nat) (tasks : list json) (index : list (string * nat))
    : res (list (string * nat)) :=
  match tasks with
  | [] => Ok index
  | t :: r =>
      src ← py_get t "source" JNull;
      if py_truthy src then
        key ← py_get src "link" (JStr "");
        match key with
        | JStr s => index_tasks (S i) r (dict_set s i index)
        | JArr _ | JObj _ => Raise TypeError
        | _ => index_tasks (S i) r index
        end
      else index_tasks (S i) r index
  end.

Definition terms_json (op : Opportunity) : json :=
  JArr (map JStr (matched_terms op)).

(** The four assignments of the refresh branch. *)
Definition refresh_task (updated : string) (op : Opportunity) (task : json) : res json :=
  match task with
  | JObj d =>
      Ok (JObj (dict_set "action_plan" (build_action_plan op)
                 (dict_set "matched_terms" (terms_json op)
                    (dict_set "score" (JInt (score op))
                       (dict_set "updated_at" (JStr updated) d)))))
  | _ => Raise TypeError
  end.

(** The dictionary literal of a new task. *)
Definition new_task (op : Opportunity) (rel_ticket_path created updated : string) : json :=
  JObj [ ("id", JStr (stable_id (link (item op))));
         ("title", JStr (title (item op)));
         ("status", JStr "paas-backlog");
         ("priority", JStr (if 10 <=? score op then "P1" else "P2"));
         ("workstream", JStr "paas");
         ("owner", JStr "market-research-agent");
         ("score", JInt (score op));
         ("matched_terms", terms_json op);
         ("action_plan", build_action_plan op);
         ("source",
          JObj [ ("link", JStr (link (item op)));
                 ("feed", JStr (source_feed (item op)));
                 ("published_at",
                  match published_at (item op) with
                  | Some p => JStr (isoformat p)
                  | None => JNull
                  end) ]);
         ("ticket_path", JStr rel_ticket_path);
         ("created_at", JStr created);
         ("updated_at", JStr updated);
         ("tags", JArr [JStr "market-research"; JStr "opportunity"; JStr "paas"]) ].

(** The feeds as the run meets them: for each URL either the message of
    the exception [parse_feed_items] died of or the items it returned. *)
Definition Feeds : Type := list (string * (string + list FeedItem)).

Fixpoint collect_feeds (feeds : Feeds) : list FeedItem * list string :=
  match feeds with
  | [] => ([], [])
  | (url, r) :: rest =>
      let '(items, errors) := collect_feeds rest in
      match r with
      | inl msg => (items, (url +:+ ": " +:+ msg) :: errors)
      | inr its => (its ++ items, errors)
      end
  end.

(** The deduplication loop: the first item of every link. *)
Fixpoint dedupe (seen_links : list string) (items : list FeedItem) : list FeedItem :=
  match items with
  | [] => []
  | it :: r =>
      if bool_decide (link it ∈ seen_links) then dedupe seen_links r
      else it :: dedupe (link it :: seen_links) r
  end.

Definition last_n {A} (n : nat) (l : list A) : list A :=
  drop (length l - n) l.

Definition report_lines (today : string) (deduped : nat) (scored : nat)
    (top : list Opportunity) (created : Z) (errors : list string) : list string :=
  [ "# Market Opportunities Scan (" +:+ today +:+ ")";
    "";
    "- Signals scanned: " +:+ str_of_Z (Z.of_nat deduped);
    "- Scored opportunities: " +:+ str_of_Z (Z.of_nat scored);
    "- Top opportunities considered: " +:+ str_of_Z (Z.of_nat (length top));
    "- New tasks created: " +:+ str_of_Z created;
    "";
    "## Top opportunities" ]
  ++ match top with
     | [] => ["- No high-signal opportunities found in this run."]
     | _ =>
         concat (map (fun op =>
           let plan := playbook_of (category op) in
           [ "### " +:+ title (item op);
             "- Link: " +:+ link (item op);
             "- Score: " +:+ str_of_Z (score op);
             "- Category: `" +:+ category op +:+ "`";
             "- Matched terms: " +:+
               match matched_terms op with
               | [] => "none"
               | ts => PyStr.join ", " ts
               end;
             "- Action: " +:+ pb_plan plan;
             "- 7-day experiment: " +:+ pb_experiment plan;
             "" ]) top)
     end
  ++ match errors with
     | [] => []
     | _ => ["## Feed errors"] ++ map (fun err => "- " +:+ err) errors ++ [""]
     end.

Definition default_columns : json :=
  JArr [ JObj [("id", JStr "market-intel"); ("name", JStr "Market Intel")];
         JObj [("id", JStr "paas-backlog"); ("name", JStr "PaaS Backlog")];
         JObj [("id", JStr "paas-build"); ("name", JStr "PaaS Build")];
         JObj [("id", JStr "validate"); ("name", JStr "Validate")];
         JObj [("id", JStr "done"); ("name", JStr "Done")] ].

Definition default_board (updated : string) : json :=
  JObj [ ("version", JInt 1);
         ("updated_at", JStr updated);
         ("columns", default_columns);
         ("tasks", JArr []);
         ("history", JArr []) ].

Definition history_record (ran_at : string) (scanned top : nat) (created : Z) : json :=
  JObj [ ("ran_at", JStr ran_at);
         ("signals_scanned", JInt (Z.of_nat scanned));
         ("top_opportunities", JInt (Z.of_nat top));
         ("new_tasks", JInt created) ].

Section Run.

(** [json.loads]: [None] when it raises. *)
Variable json_loads : string -> option json.
(** The successive readings of [now_utc()]. *)
Variable clock : nat -> Z.

Definition raise {A} (e : exn) : M A := fun _ => Raise e.

Definition now_utc : M Z :=
  fun w => Ok (clock (w_tick w), World (S (w_tick w)) (w_fs w)).

Definition path_exists (path : string) : M bool :=
  fun w => Ok (bool_decide (is_Some (w_fs w !! path)), w).

Definition read_text (path : string) : M string :=
  fun w =>
    match w_fs w !! path with
    | Some (Text s) => Ok (s, w)
    | Some Undecodable => Raise UnicodeDecodeError
    | Some Directory | None => Raise OSError
    end.

Definition write_text (path content : string) : M unit :=
  fun w =>
    match w_fs w !! path with
    | Some Directory => Raise OSError
    | _ => Ok (tt, World (w_tick w) (<[path := Text content]> (w_fs w)))
    end.

(** [try: body / except Exception: handler], for a body that only reads. *)
Definition try_except {A} (body handler : M A) : M A :=
  fun w =>
    match body w with
    | Ok r => Ok r
    | Raise Unmodelled => Raise Unmodelled
    | Raise _ => handler w
    end.

Definition load_json_or_default (path : string) (dflt : json) : M json :=
  ex ← path_exists path;
  if negb ex then mret dflt
  else
    try_except
      (s ← read_text path;
       match json_loads s with
       | Some v => mret v
       | None => raise ValueError
       end)
      (mret dflt).

Definition write_if_changed (path content : string) : M bool :=
  ex ← path_exists path;
  existing ← (if ex : bool then s ← read_text path; mret (Some s) else mret None);
  if bool_decide (existing = Some content) then mret false
  else
    _ ← write_text path content;
    mret true.

(** [score_item] with its reading of the clock. *)
Definition score_item_now (it : FeedItem) : M (option Opportunity) :=
  match published_at it with
  | Some _ => now ← now_utc; mret (score_item now it)
  | None => mret (score_item 0 it)
  end.

Fixpoint score_all (items : list FeedItem) : M (list Opportunity) :=
  match items with
  | [] => mret []
  | it :: r =>
      scored ← score_item_now it;
      rest ← score_all r;
      mret (match scored with Some op => op :: rest | None => rest end)
  end.

(** The body of the merge loop. *)
Definition merge_one (args : Args) (st : MergeState) (op : Opportunity) : M MergeState :=
  let key := link (item op) in
  match dict_get key (ms_index st) with
  | Some i =>
      match arr_items (ms_tasks st) !! i with
      | Some task =>
          now ← now_utc;
          task' ← lift (refresh_task (isoformat now) op task);
          mret {| ms_tasks := JArr (<[i := task']> (arr_items (ms_tasks st)));
                  ms_index := ms_index st;
                  ms_created := ms_created st;
                  ms_paths := ms_paths st |}
      | None => raise KeyError
      end
  | None =>
      if Z.max 0 (max_new_tickets args) <=? ms_created st then mret st
      else
        today ← now_utc;
        let ticket_name :=
          strftime_Ymd today +:+ "-" +:+ slugify (title (item op)) +:+ ".md" in
        let rel_ticket_path := tickets_dir args +:+ "/" +:+ ticket_name in
        created ← now_utc;
        updated ← now_utc;
        let task := new_task op rel_ticket_path (isoformat created) (isoformat updated) in
        tasks' ← lift (py_append (ms_tasks st) task);
        _ ← write_if_changed rel_ticket_path (create_ticket_content op);
        mret {| ms_tasks := tasks';
                ms_index := dict_set key (length (arr_items (ms_tasks st))) (ms_index st);
                ms_created := ms_created st + 1;
                ms_paths := ms_paths st ++ [rel_ticket_path] |}
  end.

Fixpoint merge_top (args : Args) (st : MergeState) (top : list Opportunity) : M MergeState :=
  match top with
  | [] => mret st
  | op :: r =>
      st' ← merge_one args st op;
      merge_top args st' r
  end.

(** [board.setdefault("history", []).append(record)] followed by the
    truncation to the last 50 records. *)
Definition push_history (record : json) (board : list (string * json))
    : res (list (string * json)) :=
  match dict_get "history" board with
  | None => Ok (dict_set "history" (JArr (last_n 50 [record])) board)
  | Some (JArr h) => Ok (dict_set "history" (JArr (last_n 50 (h ++ [record]))) board)
  | Some _ => Raise AttributeError
  end.

(** The part of [main] that computes the new board: scoring, ranking,
    loading, merging and the history record. It returns the board, the
    final merge state and the figures of the report. *)
Definition reconcile (args : Args) (feeds : Feeds)
    : M (json * MergeState * (nat * nat * list Opportunity * list string)) :=
  let '(fetched_items, errors) := collect_feeds feeds in
  let deduped := dedupe [] fetched_items in
  opportunities ← score_all deduped;
  let ranked := sort_opportunities opportunities in
  let top := take_top (max_opportunities args) ranked in
  default_updated ← now_utc;
  board ← load_json_or_default (board_json args) (default_board (isoformat default_updated));
  existing_tasks ← lift (py_get board "tasks" (JArr []));
  task_list ← lift (py_iter existing_tasks);
  index ← lift (index_tasks 0 task_list []);
  st ← merge_top args
         {| ms_tasks := existing_tasks; ms_index := index;
            ms_created := 0; ms_paths := [] |} top;
  match board with
  | JObj d =>
      let d := dict_set "tasks" (ms_tasks st) d in
      updated ← now_utc;
      let d := dict_set "updated_at" (JStr (isoformat updated)) d in
      ran_at ← now_utc;
      d ← lift (push_history
                  (history_record (isoformat ran_at) (length deduped)
                     (length top) (ms_created st)) d);
      mret (JObj d, st, (length deduped, length opportunities, top, errors))
  | _ => raise AttributeError
  end.

Definition main (args : Args) (feeds : Feeds) : M Summary :=
  '(board, st, (scanned, scored, top, errors)) ← reconcile args feeds;
  json_changed ← write_if_changed (board_json args) (json_dumps board +:+ nl);
  md ← lift (render_board_markdown board);
  md_changed ← write_if_changed (board_md args) md;
  today ← now_utc;
  let lines := report_lines (date_isoformat today) scanned scored top (ms_created st) errors in
  today' ← now_utc;
  let path := report_dir args +:+ "/" +:+ date_isoformat today' +:+ "-market-opportunities.md" in
  rep_changed ← write_if_changed path (rstrip (PyStr.join nl lines) +:+ nl);
  let summary :=
    {| signals_scanned := scanned;
       scored_opportunities := scored;
       top_opportunities := length top;
       new_tasks := ms_created st;
       board_json_changed := json_changed;
       board_md_changed := md_changed;
       report_changed := rep_changed;
       report_path := path;
       created_ticket_paths := ms_paths st;
       feed_errors := errors |} in
  _ ← write_text (summary_json args) (json_dumps (summary_to_json summary) +:+ nl);
  mret summary.

End Run.

Definition ex_args : Args :=
  {| board_json := "docs/market/board.json";
     board_md := "docs/market/BOARD.md";
     report_dir := "docs/market/reports";
     tickets_dir := "tickets/market";
     summary_json := "tmp/summary.json";
     max_opportunities := 6;
     max_new_tickets := 3 |}.

Definition ex_feeds : Feeds :=
  [ ("https://a.example.com/feed", inr [ex_item_pricing; ex_item_tie]);
    ("https://b.example.com/feed", inl "timed out") ].

Definition frozen_clock (t : Z) : nat -> Z := fun _ => t.

Definition empty_world : world := World 0 ∅.

(** ** A JSON reader

    [main] is parametric in [json.loads]. [JsonReader.loads] is the reader
    the examples run with: it reads the JSON grammar restricted to what
    [json_dumps] writes (integers for numbers, characters below 256). *)

Module JsonReader.

Definition is_ws (c : ascii) : bool :=
  let n := nat_of_ascii c in
  ((n =? 32) || (n =? 9) || (n =? 10) || (n =? 13))%nat.

Fixpoint skip_ws (s : string) : string :=
  match s with
  | String c r => if is_ws c then skip_ws r else s
  | EmptyString => ""
  end.

Definition hex_value (c : ascii) : option Z :=
  let n := Z.of_nat (nat_of_ascii c) in
  if (48 <=? n) && (n <=? 57) then Some (n - 48)
  else if (97 <=? n) && (n <=? 102) then Some (n - 87)
  else if (65 <=? n) && (n <=? 70) then Some (n - 55)
  else None.

Definition simple_escape (c : ascii) : option ascii :=
  let n := nat_of_ascii c in
  if (n =? 34)%nat then Some dquote
  else if (n =? 92)%nat then Some "\"%char
  else if (n =? 47)%nat then Some "/"%char
  else if (n =? 98)%nat then Some "008"%char
  else if (n =? 102)%nat then Some "012"%char
  else if (n =? 110)%nat then Some "010"%char
  else if (n =? 114)%nat then Some "013"%char
  else if (n =? 116)%nat then Some "009"%char
  else None.

(** The characters of a string literal after its opening quote, and what
    follows the closing quote. *)
Fixpoint read_string (s : string) : option (string * string) :=
  match s with
  | EmptyString => None
  | String c r =>
      if Ascii.eqb c dquote then Some ("", r)
      else if Ascii.eqb c "\" then
        match r with
        | String "u" (String a (String b (String c' (String d r')))) =>
            match hex_value a, hex_value b, hex_value c', hex_value d with
            | Some 0, Some 0, Some h, Some l =>
                '(t, rest) ← read_string r';
                Some (String (ascii_of_nat (Z.to_nat (16 * h + l))) t, rest)
            | _, _, _, _ => None
            end
        | String e r' =>
            match simple_escape e with
            | Some x => '(t, rest) ← read_string r'; Some (String x t, rest)
            | None => None
            end
        | EmptyString => None
        end
      else if (nat_of_ascii c <? 32)%nat then None
      else '(t, rest) ← read_string r; Some (String c t, rest)
  end.

Definition is_digit (c : ascii) : bool :=
  let n := nat_of_ascii c in ((48 <=? n) && (n <=? 57))%nat.

(** The value of the leading digits after [acc], their number, and the rest. *)
Fixpoint read_digits (acc : Z) (count : nat) (s : string) : Z * nat * string :=
  match s with
  | String c r =>
      if is_digit c
      then read_digits (10 * acc + (Z.of_nat (nat_of_ascii c) - 48)) (S count) r
      else (acc, count, s)
  | EmptyString => (acc, count, "")
  end.

Definition starts_fraction (s : string) : bool :=
  match s with
  | String c _ => Ascii.eqb c "." || Ascii.eqb c "e" || Ascii.eqb c "E"
  | EmptyString => false
  end.

Definition read_number (s : string) : option (json * string) :=
  let '(neg, body) :=
    match s with
    | String "-" r => (true, r)
    | _ => (false, s)
    end in
  let '(n, count, rest) := read_digits 0 0 body in
  let leading_zero :=
    match body with String "0" _ => (1 <? count)%nat | _ => false end in
  if (count =? 0)%nat || leading_zero || starts_fraction rest then None
  else Some (JInt (if neg : bool then - n else n), rest).

Definition read_literal (lit : string) (v : json) (s : string) : option (json * string) :=
  if String.prefix lit s
  then Some (v, String.substring (String.length lit) (String.length s - String.length lit) s)
  else None.

Fixpoint read_value (fuel : nat) (s : string) {struct fuel} : option (json * string) :=
  match fuel with
  | O => None
  | S fuel =>
      match skip_ws s with
      | String "{" r =>
          match skip_ws r with
          | String "}" r' => Some (JObj [], r')
          | r' => '(d, rest) ← read_members fuel [] r'; Some (JObj d, rest)
          end
      | String "[" r =>
          match skip_ws r with
          | String "]" r' => Some (JArr [], r')
          | r' => '(l, rest) ← read_elements fuel [] r'; Some (JArr l, rest)
          end
      | String "n" _ as t => read_literal "null" JNull t
      | String "t" _ as t => read_literal "true" (JBool true) t
      | String "f" _ as t => read_literal "false" (JBool false) t
      | String c r as t =>
          if Ascii.eqb c dquote
          then '(x, rest) ← read_string r; Some (JStr x, rest)
          else read_number t
      | EmptyString => None
      end
  end
with read_elements (fuel : nat) (acc : list json) (s : string) {struct fuel}
    : option (list json * string) :=
  match fuel with
  | O => None
  | S fuel =>
      '(v, rest) ← read_value fuel s;
      match skip_ws rest with
      | String "," r => read_elements fuel (acc ++ [v]) r
      | String "]" r => Some (acc ++ [v], r)
      | _ => None
      end
  end
with read_members (fuel : nat) (acc : list (string * json)) (s : string) {struct fuel}
    : option (list (string * json) * string) :=
  match fuel with
  | O => None
  | S fuel =>
      match skip_ws s with
      | String c r =>
          if Ascii.eqb c dquote then
            '(k, rest) ← read_string r;
            match skip_ws rest with
            | String ":" r' =>
                '(v, rest') ← read_value fuel r';
                match skip_ws rest' with
                | String "," r'' => read_members fuel (dict_set k v acc) r''
                | String "}" r'' => Some (dict_set k v acc, r'')
                | _ => None
                end
            | _ => None
            end
          else None
      | EmptyString => None
      end
  end.

Definition loads (s : string) : option json :=
  '(v, rest) ← read_value (S (String.length s)) s;
  match skip_ws rest with
  | EmptyString => Some v
  | _ => None
  end.

End JsonReader.

Definition ex_run1 : res (Summary * world) :=
  main JsonReader.loads (frozen_clock ex_now) ex_args ex_feeds empty_world.

Definition ex_run2 : res (Summary * world) :=
  match ex_run1 with
  | Ok (_, w) => main JsonReader.loads (frozen_clock ex_now) ex_args ex_feeds
                   (World 0 (w_fs w))
  | Raise e => Raise e
  end.

(** ** Vocabulary of the statements *)

(** The key under which the comprehension of [existing_by_source] files a
    task: its [source.link], when the task has a non-empty [source]. *)
Definition task_link (t : json) : option string :=
  match t with
  | JObj d =>
      match dict_get "source" d with
      | Some (JObj sd) =>
          if py_truthy (JObj sd) then
            match dict_get "link" sd with
            | Some (JStr s) => Some s
            | Some _ => None
            | None => Some ""
            end
          else None
      | _ => None
      end
  | _ => None
  end.

(** Position [j] holds the task that the index has for link [k]: a task
    with that link that no later task of the list shares. *)
Definition indexed (tasks : list json) (k : string) (j : nat) : Prop :=
  (exists t, tasks !! j = Some t /\ task_link t = Some k) /\
  (forall j' t', (j < j')%nat -> tasks !! j' = Some t' -> task_link t' <> Some k).

(** The index agrees with the task list. *)
Definition index_ok (index : list (string * nat)) (tasks : list json) : Prop :=
  forall k,
    match dict_get k index with
    | Some j => indexed tasks k j
    | None => forall t, t ∈ tasks -> task_link t <> Some k
    end.

(** The fields that the refresh branch assigns. *)
Definition refreshed_fields : list string :=
  ["updated_at"; "score"; "matched_terms"; "action_plan"].

(** [t'] is [t] up to the refreshed fields. *)
Definition same_task (t t' : json) : Prop :=
  match t, t' with
  | JObj d, JObj d' =>
      forall k, k ∉ refreshed_fields -> dict_get k d' = dict_get k d
  | _, _ => t' = t
  end.

(** What the run finds on disk: the value that [load_json_or_default]
    returns unless it falls back to the default board, and the value of its
    [tasks] field that [main] then works on. *)
Definition board_on_disk (json_loads : string -> option json) (args : Args)
    (w : world) : option json :=
  match w_fs w !! board_json args with
  | Some (Text s) => json_loads s
  | _ => None
  end.

Definition tasks_on_disk (json_loads : string -> option json) (args : Args)
    (w : world) : json :=
  match board_on_disk json_loads args w with
  | Some (JObj d) =>
      match dict_get "tasks" d with Some v => v | None => JArr [] end
  | _ => JArr []
  end.

(** The opportunities of a ranking that the index does not know. *)
Definition unseen (index : list (string * nat)) (top : list Opportunity) : list Opportunity :=
  List.filter (fun op => negb (dict_mem (link (item op)) index)) top.

(** The path of the ticket of an opportunity created on the day of [today]. *)
Definition ticket_path_of (args : Args) (today : Z) (op : Opportunity) : string :=
  tickets_dir args +:+ "/" +:+
  (strftime_Ymd today +:+ "-" +:+ slugify (title (item op)) +:+ ".md").

(** The budget of new tickets as the loop compares it, and what is left of
    it in a state. *)
Definition budget (args : Args) : Z := Z.max 0 (max_new_tickets args).

Definition room (args : Args) (st : MergeState) : nat :=
  Z.to_nat (budget args - ms_created st).

(** [op] refers to position [i] in the index. *)
Definition hits (index : list (string * nat)) (op : Opportunity) (i : nat) : Prop :=
  dict_get (link (item op)) index = Some i.

(** What a successful merge of [top] from [st] (world [w]) to [st'] (world
    [w']) has done, with [olds] the tasks that were there, [news] the tasks
    appended, [made] the opportunities they were created for and [paths]
    their ticket paths. *)
Record merge_post (clock : nat -> Z) (args : Args) (top : list Opportunity)
    (st : MergeState) (w : world) (st' : MergeState) (w' : world)
    (olds news : list json) (made : list Opportunity) (paths : list string) : Prop := {
  mp_tasks :
    ms_tasks st' =
      match ms_tasks st with JArr _ => JArr (olds ++ news) | v => v end;
  mp_items : arr_items (ms_tasks st') = olds ++ news;
  mp_length : length olds = length (arr_items (ms_tasks st));
  mp_olds :
    forall i t, arr_items (ms_tasks st) !! i = Some t ->
      exists t', olds !! i = Some t' /\
        ((exists op n, op ∈ top /\ hits (ms_index st) op i /\
            refresh_task (isoformat (clock n)) op t = Ok t')
         \/ ((forall op, op ∈ top -> ~ hits (ms_index st) op i) /\ t' = t));
  mp_made : made = take (room args st) (unseen (ms_index st) top);
  mp_created : ms_created st' = ms_created st + Z.of_nat (length made);
  mp_news :
    Forall2 (fun op t => exists n1 n2 n3,
               t = new_task op (ticket_path_of args (clock n1) op)
                     (isoformat (clock n2)) (isoformat (clock n3)))
      made news;
  mp_paths : ms_paths st' = ms_paths st ++ paths;
  mp_paths_made :
    Forall2 (fun op p => exists n, p = ticket_path_of args (clock n) op) made paths;
  mp_index_ok : index_ok (ms_index st') (arr_items (ms_tasks st'));
  mp_index_old :
    forall k i, dict_get k (ms_index st) = Some i -> dict_get k (ms_index st') = Some i;
  mp_index_new :
    forall k, dict_get k (ms_index st) = None ->
      (forall op, op ∈ made -> link (item op) <> k) ->
      dict_get k (ms_index st') = None;
  mp_tick : (w_tick w <= w_tick w')%nat;
  mp_fs_other :
    forall path, path ∉ paths -> w_fs w' !! path = w_fs w !! path;
  mp_fs_same : made = [] -> w_fs w' = w_fs w;
  mp_fs_paths :
    forall path, path ∈ paths ->
      exists op, op ∈ made /\ w_fs w' !! path = Some (Text (create_ticket_content op))
}.

Definition op_link (op : Opportunity) : string := link (item op).

(** The task list of a board. *)
Definition board_tasks (board : json) : list json :=
  match board with
  | JObj d => match dict_get "tasks" d with Some v => arr_items v | None => [] end
  | _ => []
  end.

(** A board edited by hand: its only task was moved to [done] with
    priority [P3], given another owner and a field of its own. *)
Definition ex_task_done : json :=
  JObj [ ("id", JStr "mr-8fa3bf203e");
         ("title", JStr "Launch week");
         ("status", JStr "done");
         ("priority", JStr "P3");
         ("owner", JStr "alice");
         ("score", JInt 1);
         ("source", JObj [("link", JStr "https://example.com/pricing")]);
         ("ticket_path", JStr "tickets/market/launch.md");
         ("created_at", JStr "2023-01-01T00:00:00+00:00");
         ("note", JStr "keep") ].

Definition ex_board : json :=
  JObj [ ("version", JInt 1);
         ("updated_at", JStr "2023-01-01T00:00:00+00:00");
         ("columns", default_columns);
         ("tasks", JArr [ex_task_done]);
         ("history", JArr []) ].

Definition ex_world : world :=
  World 0 {[ "docs/market/board.json" := Text (json_dumps ex_board +:+ nl) ]}.

(** One known link and two new ones, and room for one new ticket. *)
Definition ex_feeds_mixed : Feeds :=
  [ ("https://a.example.com/feed",
     inr [ex_item_pricing; ex_item_dated; ex_item_undated; ex_item_pricing]) ].

Definition ex_args_one : Args :=
  {| board_json := "docs/market/board.json";
     board_md := "docs/market/BOARD.md";
     report_dir := "docs/market/reports";
     tickets_dir := "tickets/market";
     summary_json := "tmp/summary.json";
     max_opportunities := 6;
     max_new_tickets := 1 |}.

Definition ex_reconcile :=
  reconcile JsonReader.loads (frozen_clock ex_now) ex_args_one ex_feeds_mixed ex_world.

Definition ex_op_pricing : Opportunity :=
  {| item := ex_item_pricing; score := 4; category := "pricing";
     matched_terms := ["pricing"] |}.

Definition ex_op_undated : Opportunity :=
  {| item := ex_item_undated; score := 4; category := "pricing";
     matched_terms := ["pricing"] |}.

Definition ex_args_none : Args :=
  {| board_json := "docs/market/board.json";
     board_md := "docs/market/BOARD.md";
     report_dir := "docs/market/reports";
     tickets_dir := "tickets/market";
     summary_json := "tmp/summary.json";
     max_opportunities := 6;
     max_new_tickets := -1 |}.

(* ==== THEOREMS ==== *)

(** ** Properties of the scorer *)

Lemma dict_set_fresh {V} (k : string) (v : V) d :
  dict_get k d = None -> dict_set k v d = d ++ [(k, v)].
Proof.
  induction d as [|[k' v'] d IH]; simpl; [done|].
  destruct (String.eqb k k'); [done|]. intros H. by rewrite IH.
Qed.

Lemma dict_get_app_None {V} (k : string) (d1 d2 : list (string * V)) :
  dict_get k d1 = None -> dict_get k (d1 ++ d2) = dict_get k d2.
Proof.
  induction d1 as [|[k' v'] d IH]; simpl; [done|].
  destruct (String.eqb k k'); [done|]. auto.
Qed.

Lemma scan_terms_fold text weight terms acc matched :
  fold_left
    (fun '(cat_score, matched) term =>
       if PyStr.contains term text
       then (cat_score + weight, matched ++ [term])
       else (cat_score, matched))
    terms (acc, matched)
  = (acc + weight * Z.of_nat (length (term_hits text terms)),
     matched ++ term_hits text terms).
Proof.
  revert acc matched. induction terms as [|t terms IH]; intros acc matched; simpl.
  - f_equal; [lia | by rewrite app_nil_r].
  - destruct (PyStr.contains t text); rewrite IH; simpl.
    + f_equal; [lia | by rewrite <- app_assoc].
    + done.
Qed.

Lemma scan_terms_spec text weight terms matched :
  scan_terms text weight terms matched
  = (weight * Z.of_nat (length (term_hits text terms)),
     matched ++ term_hits text terms).
Proof. unfold scan_terms. by rewrite scan_terms_fold. Qed.

Lemma dict_get_positive_scores_None text table k :
  k ∉ map fst table -> dict_get k (positive_scores text table) = None.
Proof.
  unfold positive_scores.
  induction table as [|e table IH]; simpl; [done|].
  intros Hk. apply not_elem_of_cons in Hk as [Hne Hk].
  destruct (0 <? cat_score text e); simpl; [|by auto].
  destruct (String.eqb_spec k (fst e)); [done | by auto].
Qed.

Lemma scan_categories_fold text table total scores matched :
  NoDup (map fst table) ->
  (forall k, k ∈ map fst table -> dict_get k scores = None) ->
  fold_left
    (fun '(total, category_scores, matched) '(category, (terms, weight)) =>
       let '(cat_score, matched') := scan_terms text weight terms matched in
       if 0 <? cat_score
       then (total + cat_score, dict_set category cat_score category_scores, matched')
       else (total, category_scores, matched'))
    table (total, scores, matched)
  = (total + sum_Z (map snd (positive_scores text table)),
     scores ++ positive_scores text table,
     matched ++ concat (map (fun e => term_hits text (fst (snd e))) table)).
Proof.
  revert total scores matched.
  induction table as [|[c [terms w]] table IH]; intros total scores matched Hnd Hfresh.
  - simpl. rewrite !app_nil_r. f_equal. f_equal. lia.
  - simpl in Hnd. apply NoDup_cons in Hnd as [Hc Hnd].
    cbn [fold_left]. rewrite scan_terms_spec.
    unfold positive_scores. cbn [map List.filter fst snd concat].
    change (cat_score text (c, (terms, w)))
      with (w * Z.of_nat (length (term_hits text terms))).
    destruct (0 <? w * Z.of_nat (length (term_hits text terms))) eqn:Hpos.
    + rewrite IH; [|done|].
      * rewrite dict_set_fresh by (apply Hfresh; simpl; left).
        cbn [map sum_Z fold_right snd]. unfold positive_scores.
        rewrite <- !app_assoc. cbn [app].
        f_equal; try done. f_equal; try done. unfold sum_Z. lia.
      * intros k Hk. rewrite dict_set_fresh by (apply Hfresh; simpl; left).
        rewrite dict_get_app_None.
        -- simpl. destruct (String.eqb_spec k c); [by subst|done].
        -- apply Hfresh. simpl. by right.
    + rewrite IH; [|done|].
      * rewrite <- !app_assoc. done.
      * intros k Hk. apply Hfresh. simpl. by right.
Qed.

Lemma KEYWORD_WEIGHTS_NoDup : NoDup (map fst KEYWORD_WEIGHTS).
Proof. apply NoDup_ListNoDup. repeat constructor; simpl; intuition discriminate. Qed.

Lemma scan_categories_spec text :
  scan_categories text KEYWORD_WEIGHTS
  = (sum_Z (map snd (positive_scores text KEYWORD_WEIGHTS)),
     positive_scores text KEYWORD_WEIGHTS,
     concat (map (fun e => term_hits text (fst (snd e))) KEYWORD_WEIGHTS)).
Proof.
  unfold scan_categories.
  rewrite scan_categories_fold.
  all: try apply KEYWORD_WEIGHTS_NoDup; try done.
Qed.

Lemma KEYWORD_WEIGHTS_nonneg :
  Forall (fun e : string * (list string * Z) => 0 <= snd (snd e)) KEYWORD_WEIGHTS.
Proof. repeat constructor; simpl; lia. Qed.

Lemma cat_score_nonneg text e : 0 <= snd (snd e) -> 0 <= cat_score text e.
Proof. unfold cat_score. nia. Qed.

Lemma sum_positive_scores text table :
  Forall (fun e : string * (list string * Z) => 0 <= snd (snd e)) table ->
  sum_Z (map snd (positive_scores text table)) = sum_Z (map (cat_score text) table).
Proof.
  unfold positive_scores. induction 1 as [|e table He _ IH]; simpl; [done|].
  pose proof (cat_score_nonneg text e He).
  destruct (0 <? cat_score text e) eqn:Hp; simpl; rewrite IH; [done|].
  apply Z.ltb_ge in Hp. lia.
Qed.

Lemma keyword_total_spec it :
  keyword_total it = sum_Z (map (cat_score (item_text it)) KEYWORD_WEIGHTS).
Proof.
  unfold keyword_total. rewrite scan_categories_spec. cbn [fst].
  apply sum_positive_scores, KEYWORD_WEIGHTS_nonneg.
Qed.

Lemma category_scores_of_spec it :
  category_scores_of it = positive_scores (item_text it) KEYWORD_WEIGHTS.
Proof. unfold category_scores_of. by rewrite scan_categories_spec. Qed.

Lemma recency_bonus_range now p : 0 <= recency_bonus now p <= 3.
Proof.
  unfold recency_bonus. destruct p as [p|]; [|lia].
  destruct (_ <=? days 7); [lia|]. destruct (_ <=? days 30); lia.
Qed.

(** What [score_item] returns, in terms of its parts. *)
Lemma score_item_unfold now it :
  score_item now it =
    if total_score now it <? 4 then None
    else Some {| item := it;
                 score := total_score now it;
                 category := pick_category (category_scores_of it);
                 matched_terms :=
                   sorted_set (snd (scan_categories (item_text it) KEYWORD_WEIGHTS)) |}.
Proof.
  unfold score_item, total_score, keyword_total, category_scores_of.
  by destruct (scan_categories (item_text it) KEYWORD_WEIGHTS) as [[t cs] m].
Qed.

Lemma contains_lower needle hay :
  PyStr.contains needle hay = true ->
  PyStr.contains (PyStr.lower needle) (PyStr.lower hay) = true.
Proof.
  assert (Hp : forall n h, String.prefix n h = true ->
                 String.prefix (PyStr.lower n) (PyStr.lower h) = true).
  { induction n as [|a n IH]; intros [|b h]; simpl; try done.
    destruct (ascii_dec a b) as [->|]; [|done].
    intros H. destruct (ascii_dec _ _); [auto|done]. }
  induction hay as [|b h IH]; simpl.
  - rewrite orb_false_r. intros H. apply (Hp _ ""%string) in H. simpl in H.
    by rewrite H.
  - intros [H|H]%orb_true_iff.
    + apply (Hp _ (String b h)) in H. simpl in H. by rewrite H.
    + rewrite IH by done. apply orb_true_r.
Qed.

Lemma contains_app_r needle pre hay :
  PyStr.contains needle hay = true ->
  PyStr.contains needle (pre +:+ hay) = true.
Proof.
  intros H. induction pre as [|c pre IH]; simpl; [done|].
  rewrite IH. apply orb_true_r.
Qed.

Lemma lower_app a b : PyStr.lower (a +:+ b) = PyStr.lower a +:+ PyStr.lower b.
Proof. induction a as [|c a IH]; simpl; [done | by rewrite IH]. Qed.

Lemma link_term_in_text term it :
  PyStr.contains term (link it) = true ->
  PyStr.contains (PyStr.lower term) (item_text it) = true.
Proof.
  intros H. unfold item_text. rewrite lower_app.
  apply contains_app_r. rewrite lower_app.
  apply contains_app_r. by apply contains_lower.
Qed.

Lemma py_max_by_snd_inv (pre mid : list (string * Z)) best rest :
  Forall (fun y => snd y < snd best) pre ->
  Forall (fun y => snd y <= snd best) mid ->
  exists pre' post,
    pre ++ best :: mid ++ rest = pre' ++ py_max_by_snd best rest :: post /\
    Forall (fun y => snd y < snd (py_max_by_snd best rest)) pre' /\
    Forall (fun y => snd y <= snd (py_max_by_snd best rest)) post.
Proof.
  revert pre mid best. induction rest as [|x rest IH]; intros pre mid best Hpre Hmid.
  - exists pre, mid. rewrite app_nil_r. simpl. auto.
  - unfold py_max_by_snd. cbn [fold_left].
    destruct (snd best <? snd x) eqn:Hlt.
    + apply Z.ltb_lt in Hlt.
      destruct (IH (pre ++ best :: mid) [] x) as (pre' & post & Heq & H1 & H2).
      { apply Forall_app. split.
        - eapply Forall_impl; [exact Hpre|]. simpl. intros; lia.
        - constructor; [done|].
          eapply Forall_impl; [exact Hmid|]. simpl. intros; lia. }
      { constructor. }
      exists pre', post. split; [|done].
      fold (py_max_by_snd x rest). rewrite <- Heq. rewrite <- app_assoc. done.
    + apply Z.ltb_ge in Hlt.
      destruct (IH pre (mid ++ [x]) best Hpre) as (pre' & post & Heq & H1 & H2).
      { apply Forall_app. split; [done|]. by repeat constructor. }
      exists pre', post. split; [|done].
      fold (py_max_by_snd best rest). rewrite <- Heq. rewrite <- (app_assoc mid). done.
Qed.

(** [pick_category] returns the first entry of the score list whose score
    is maximal. *)
Lemma pick_category_first_max (x : string * Z) (r : list (string * Z)) :
  exists pre v post,
    x :: r = pre ++ (pick_category (x :: r), v) :: post /\
    Forall (fun y => snd y < v) pre /\
    Forall (fun y => snd y <= v) post.
Proof.
  destruct (py_max_by_snd_inv [] [] x r) as (pre & post & Heq & H1 & H2);
    [constructor..|].
  exists pre, (snd (py_max_by_snd x r)), post. simpl in *.
  by rewrite <- surjective_pairing.
Qed.

Lemma filter_map_split {A B} (f : B -> bool) (g : A -> B) (l : list A) pre y post :
  List.filter f (map g l) = pre ++ y :: post ->
  exists l1 e l2,
    l = l1 ++ e :: l2 /\ g e = y /\ f y = true /\
    List.filter f (map g l1) = pre /\ List.filter f (map g l2) = post.
Proof.
  revert pre. induction l as [|a l IH]; intros pre; simpl.
  - by destruct pre.
  - destruct (f (g a)) eqn:Hf.
    + destruct pre as [|b pre]; simpl; intros [= <- Heq].
      * exists [], a, l. by simpl.
      * destruct (IH _ Heq) as (l1 & e & l2 & -> & <- & ? & <- & <-).
        exists (a :: l1), e, l2. simpl. by rewrite Hf.
    + intros Heq. destruct (IH _ Heq) as (l1 & e & l2 & -> & <- & ? & <- & <-).
      exists (a :: l1), e, l2. simpl. by rewrite Hf.
Qed.

Lemma Forall_filter_map_bound text table (v : Z) (R : Z -> Z -> Prop) :
  0 < v -> (forall a, a <= 0 -> R a v) ->
  Forall (fun y : string * Z => R (snd y) v) (positive_scores text table) ->
  Forall (fun e => R (cat_score text e) v) table.
Proof.
  intros Hv HR. unfold positive_scores.
  induction table as [|e table IH]; simpl; [constructor|].
  destruct (0 <? cat_score text e) eqn:Hp.
  - intros [H1 H2]%Forall_cons. constructor; auto.
  - intros H. apply Z.ltb_ge in Hp. constructor; auto.
Qed.

Lemma score_item_Some now it op :
  score_item now it = Some op ->
  4 <= total_score now it /\ item op = it /\ score op = total_score now it /\
  category op = pick_category (category_scores_of it).
Proof.
  rewrite score_item_unfold. destruct (total_score now it <? 4) eqn:Hlt; [done|].
  apply Z.ltb_ge in Hlt. by intros [= <-].
Qed.

(** C5. For an item with a publish date the recency bonus that [score_item]
    adds to the keyword score is 3 when [now - published_at] is at most 7 days
    (7 days exactly included), 1 when it is more than 7 and at most 30 days
    (30 days exactly included) and 0 beyond; without a publish date it is 0.
    The bonus is the difference between the score of the returned opportunity
    and the sum of the keyword contributions of the categories. *)
Theorem C5_recency_bonus (now : Z) (it : FeedItem) :
  let keywords := sum_Z (map (cat_score (item_text it)) KEYWORD_WEIGHTS) in
  let bonus := recency_bonus now (published_at it) in
  (forall op, score_item now it = Some op -> score op - keywords = bonus) /\
  match published_at it with
  | Some p =>
      (now - p <= days 7 -> bonus = 3) /\
      (days 7 < now - p <= days 30 -> bonus = 1) /\
      (days 30 < now - p -> bonus = 0)
  | None => bonus = 0
  end.
Proof.
  cbv zeta. split.
  - intros op Hop. apply score_item_Some in Hop as (_ & _ & -> & _).
    unfold total_score. rewrite keyword_total_spec. lia.
  - unfold recency_bonus. destruct (published_at it) as [p|]; [|done].
    destruct (now - p <=? days 7) eqn:H7; [apply Z.leb_le in H7|apply Z.leb_gt in H7];
    (destruct (now - p <=? days 30) eqn:H30;
      [apply Z.leb_le in H30|apply Z.leb_gt in H30]);
    unfold days in *; repeat split; intros; lia.
Qed.

(** The boundary cases of C5 on a dated item that matches "pricing": exactly
    7 days old, one second more, exactly 30 days old, one microsecond more. *)
Lemma C5_recency_bonus_witness :
  let it := {| title := "pricing"; link := "l"; published_at := Some 1000000;
               source_feed := "f" |} in
  (score <$> score_item (1000000 + days 7) it) = Some 7 /\
  (score <$> score_item (1000000 + days 7 + 1000000) it) = Some 5 /\
  (score <$> score_item (1000000 + days 30) it) = Some 5 /\
  (score <$> score_item (1000000 + days 30 + 1) it) = Some 4.
Proof.
  cbv zeta.
  pose proof (C5_recency_bonus (1000000 + days 7)
    {| title := "pricing"; link := "l"; published_at := Some 1000000;
       source_feed := "f" |}) as [H _].
  specialize (H _ eq_refl). vm_compute in H.
  repeat split; vm_compute; reflexivity.
Defined.

(** C4. The total of an item is the sum of the keyword contributions of the
    categories plus the recency bonus; [score_item] returns nothing exactly
    when the total is below 4, and otherwise an opportunity carrying the
    total: a total of 3 is discarded, a total of 4 retained. An undated item
    whose link contains "pricing" is retained with a score of at least 4;
    when "pricing" is the only term of the table that occurs in its text the
    score is 4 and the category is pricing. *)
Theorem C4_score_threshold (now : Z) (it : FeedItem) :
  let total :=
    sum_Z (map (cat_score (item_text it)) KEYWORD_WEIGHTS)
    + recency_bonus now (published_at it) in
  (score_item now it = None <-> total < 4) /\
  (forall op, score_item now it = Some op -> score op = total /\ item op = it) /\
  (total = 3 -> score_item now it = None) /\
  (total = 4 -> exists op, score_item now it = Some op /\ score op = 4) /\
  (PyStr.contains "pricing" (link it) = true -> published_at it = None ->
   (exists op, score_item now it = Some op /\ 4 <= score op) /\
   ((forall term, term ∈ all_terms -> term <> "pricing" ->
       PyStr.contains term (item_text it) = false) ->
    exists op, score_item now it = Some op /\ score op = 4 /\
               category op = "pricing")).
Proof.
  cbv zeta. rewrite <- keyword_total_spec. fold (total_score now it).
  assert (Hiff : score_item now it = None <-> total_score now it < 4).
  { rewrite score_item_unfold. destruct (total_score now it <? 4) eqn:Hlt.
    - apply Z.ltb_lt in Hlt. done.
    - apply Z.ltb_ge in Hlt. split; [done | lia]. }
  assert (Hsome : forall t, total_score now it = t -> 4 <= t ->
            exists op, score_item now it = Some op /\ score op = t /\
              category op = pick_category (category_scores_of it)).
  { intros t Ht Hge. rewrite score_item_unfold.
    destruct (total_score now it <? 4) eqn:Hlt;
      [apply Z.ltb_lt in Hlt; lia|].
    eexists. split; [reflexivity|]. simpl. done. }
  split; [done|]. split.
  { intros op Hop. apply score_item_Some in Hop as (_ & ? & ? & _). done. }
  split; [intros H3; apply Hiff; lia|]. split.
  { intros H4. destruct (Hsome 4 H4) as (op & ? & ? & _); [lia|]. eauto. }
  intros Hlink Hdate.
  apply link_term_in_text in Hlink. change (PyStr.lower "pricing") with "pricing" in Hlink.
  assert (Hbonus : recency_bonus now (published_at it) = 0) by (by rewrite Hdate).
  split.
  - assert (4 <= total_score now it) as Hge.
    { unfold total_score. rewrite Hbonus, keyword_total_spec.
      unfold KEYWORD_WEIGHTS. cbn [map sum_Z fold_right].
      assert (4 <= cat_score (item_text it)
                ("pricing", (["pricing"; "price"; "billing"; "subscription";
                              "usage-based"; "seat"], 4))).
      { unfold cat_score, term_hits. cbn [snd fst List.filter]. rewrite Hlink.
        cbn [length]. lia. }
      assert (Hnn : Forall (fun e => 0 <= cat_score (item_text it) e) KEYWORD_WEIGHTS).
      { eapply Forall_impl; [apply KEYWORD_WEIGHTS_nonneg|].
        intros e He. by apply cat_score_nonneg. }
      unfold KEYWORD_WEIGHTS in Hnn.
      repeat (apply Forall_cons in Hnn as [? Hnn]). lia. }
    destruct (Hsome _ eq_refl Hge) as (op & ? & ? & _). exists op. split; [done|lia].
  - intros Honly.
    assert (Hscan : scan_categories (item_text it) KEYWORD_WEIGHTS
                    = (4, [("pricing", 4)], ["pricing"])).
    { rewrite scan_categories_spec.
      unfold positive_scores, KEYWORD_WEIGHTS, cat_score, term_hits.
      cbn [map fst snd]. cbn [List.filter].
      rewrite Hlink.
      repeat match goal with
             | |- context [PyStr.contains ?t (item_text it)] =>
                 rewrite (Honly t);
                   [| apply list_elem_of_In; unfold all_terms, KEYWORD_WEIGHTS;
                      simpl; tauto
                    | discriminate ]
             end.
      reflexivity. }
    destruct (Hsome 4) as (op & Hop & Hs & Hc); [|lia|].
    { unfold total_score, keyword_total. by rewrite Hbonus, Hscan. }
    exists op. split; [done|]. split; [done|].
    rewrite Hc. unfold category_scores_of. by rewrite Hscan.
Qed.

Lemma C4_score_threshold_witness :
  exists op, score_item 0 ex_item_pricing = Some op /\ score op = 4 /\
             category op = "pricing".
Proof.
  destruct (C4_score_threshold 0 ex_item_pricing) as (_ & _ & _ & _ & H).
  destruct H as [_ H]; [reflexivity | reflexivity |].
  apply H. intros term Hin Hne.
  apply list_elem_of_In in Hin. unfold all_terms, KEYWORD_WEIGHTS in Hin.
  simpl in Hin.
  repeat (destruct Hin as [<- | Hin]; [first [done | reflexivity]|]).
  done.
Defined.

(** C6. The category of a retained item is that of the first entry of the
    keyword table, in declaration order, whose accumulated keyword score is
    the highest: every entry before it scores strictly less, every entry
    after it scores at most as much. *)
Theorem C6_category_first_max (now : Z) (it : FeedItem) (op : Opportunity) :
  score_item now it = Some op ->
  exists before entry after,
    KEYWORD_WEIGHTS = before ++ entry :: after /\
    category op = fst entry /\
    0 < cat_score (item_text it) entry /\
    Forall (fun e => cat_score (item_text it) e < cat_score (item_text it) entry) before /\
    Forall (fun e => cat_score (item_text it) e <= cat_score (item_text it) entry) after.
Proof.
  intros Hop. apply score_item_Some in Hop as (Hge & _ & _ & Hcat).
  rewrite category_scores_of_spec in Hcat.
  pose proof (recency_bonus_range now (published_at it)) as Hb.
  unfold total_score in Hge. unfold keyword_total in Hge.
  rewrite scan_categories_spec in Hge. cbn [fst] in Hge.
  destruct (positive_scores (item_text it) KEYWORD_WEIGHTS) as [|x r] eqn:Hps.
  { simpl in Hge. lia. }
  destruct (pick_category_first_max x r) as (pre & v & post & Heq & Hpre & Hpost).
  rewrite <- Hcat in Heq. rewrite <- Hps in Heq.
  pose proof Heq as Hsplit. unfold positive_scores in Hsplit.
  apply filter_map_split in Hsplit as (l1 & e & l2 & Htab & He & Hv & Hl1 & Hl2).
  simpl in Hv. apply Z.ltb_lt in Hv. injection He as Hc Hs.
  exists l1, e, l2. rewrite Hs. repeat split; try done.
  - apply (Forall_filter_map_bound _ _ v Z.lt); [done | intros; lia |].
    unfold positive_scores. by rewrite Hl1.
  - apply (Forall_filter_map_bound _ _ v Z.le); [done | intros; lia |].
    unfold positive_scores. by rewrite Hl2.
Qed.

Lemma C6_category_first_max_witness :
  exists op before entry after,
    score_item 0 ex_item_tie = Some op /\
    KEYWORD_WEIGHTS = before ++ entry :: after /\
    category op = fst entry /\
    category op = "pricing" /\
    cat_score (item_text ex_item_tie) entry = 8 /\
    Forall (fun e => cat_score (item_text ex_item_tie) e <= 8) after /\
    In 8 (map (cat_score (item_text ex_item_tie)) after).
Proof.
  destruct (score_item 0 ex_item_tie) as [op|] eqn:Hop; [|discriminate Hop].
  destruct (C6_category_first_max 0 ex_item_tie op Hop)
    as (before & entry & after & Htab & Hcat & Hpos & Hb & Ha).
  assert (Hc : category op = "pricing") by (injection Hop as <-; reflexivity).
  exists op, before, entry, after.
  assert (Hentry : before = [] /\ entry = ("pricing",
     (["pricing"; "price"; "billing"; "subscription"; "usage-based"; "seat"], 4))
     /\ after = tl KEYWORD_WEIGHTS).
  { rewrite Hc in Hcat. unfold KEYWORD_WEIGHTS in Htab.
    destruct before as [|b0 before]; simpl in Htab.
    - injection Htab as <- <-. done.
    - exfalso. injection Htab as <- Htab.
      repeat (destruct before as [|? before]; simpl in Htab;
              [injection Htab as <- <-; simpl in Hcat; discriminate Hcat
              | injection Htab as <- Htab]).
      by destruct before. }
  destruct Hentry as (-> & -> & ->).
  repeat split; try done.
  all: first [ by repeat constructor | vm_compute; tauto ].
Defined.

(** ** Properties of the ranking *)

Lemma insert_by_key_split x l :
  exists l1 l2, l = l1 ++ l2 /\ insert_by_key x l = l1 ++ x :: l2 /\
    Forall (fun y => key_ltb (sort_key y) (sort_key x) = true) l1 /\
    match l2 with
    | [] => True
    | y :: _ => key_ltb (sort_key y) (sort_key x) = false
    end.
Proof.
  induction l as [|y l IH]; simpl.
  - by exists [], [].
  - destruct (key_ltb (sort_key y) (sort_key x)) eqn:Hlt.
    + destruct IH as (l1 & l2 & -> & -> & H1 & H2).
      exists (y :: l1), l2. repeat split; auto.
    + exists [], (y :: l). repeat split; auto.
Qed.

Lemma insert_by_key_perm x l : insert_by_key x l ≡ₚ x :: l.
Proof.
  destruct (insert_by_key_split x l) as (l1 & l2 & -> & -> & _).
  symmetry. apply Permutation_middle.
Qed.

Lemma sort_opportunities_perm l : sort_opportunities l ≡ₚ l.
Proof.
  induction l as [|x l IH]; simpl; [done|].
  rewrite insert_by_key_perm. by rewrite IH.
Qed.








Lemma key_eqb_sym a b : key_eqb a b = key_eqb b a.
Proof. unfold key_eqb. by rewrite (Z.eqb_sym (fst a)), (Z.eqb_sym (snd a)). Qed.







(** ** Reasoning about runs *)

Lemma bind_Ok {A B} (m : M A) (k : A -> M B) (w : world) (r : B * world) :
  (m ≫= k) w = Ok r <-> exists a w1, m w = Ok (a, w1) /\ k a w1 = Ok r.
Proof.
  unfold mbind, M_bind. split.
  - destruct (m w) as [[a w1]|e]; [|done]. intros H. by exists a, w1.
  - intros (a & w1 & -> & H). done.
Qed.

Lemma ret_Ok {A} (a : A) (w : world) (r : A * world) :
  (mret a : M A) w = Ok r <-> r = (a, w).
Proof. unfold mret, M_ret. split; [by intros [= <-] | by intros ->]. Qed.

Lemma lift_Ok {A} (x : res A) (w : world) (r : A * world) :
  lift x w = Ok r <-> exists a, x = Ok a /\ r = (a, w).
Proof.
  unfold lift. destruct x as [a|e]; split.
  - intros [= <-]. by exists a.
  - by intros (a' & [= <-] & ->).
  - done.
  - by intros (a' & [=] & _).
Qed.

Lemma res_bind_Ok {A B} (m : res A) (k : A -> res B) (b : B) :
  (m ≫= k) = Ok b <-> exists a, m = Ok a /\ k a = Ok b.
Proof.
  unfold mbind, res_bind. destruct m as [a|e]; split.
  - intros H. by exists a.
  - by intros (a' & [= <-] & H).
  - done.
  - by intros (a' & [=] & _).
Qed.

(** Splits a hypothesis saying that a sequence of steps succeeded into one
    hypothesis for each step. *)
Ltac inv_run H :=
  repeat match type of H with
         | (_ ≫= _) _ = Ok _ =>
             let a := fresh "a" in let w := fresh "w" in let H1 := fresh "Hstep" in
             apply bind_Ok in H as (a & w & H1 & H)
         | mret _ _ = Ok _ => apply ret_Ok in H
         | lift _ _ = Ok _ =>
             let a := fresh "a" in let H1 := fresh "Hpure" in
             apply lift_Ok in H as (a & H1 & H)
         end.

(** ** Loading and writing files *)

(** Loading the board never fails and never touches the files: the
    loader returns the default when the path names nothing, when the file
    cannot be read as text, and when [json.loads] rejects its content; in
    every other case it returns what [json.loads] makes of the content. *)
Theorem load_json_or_default_spec (json_loads : string -> option json)
    (path : string) (dflt : json) (w : world) :
  load_json_or_default json_loads path dflt w =
    Ok (match w_fs w !! path with
        | Some (Text s) =>
            match json_loads s with Some parsed => parsed | None => dflt end
        | Some Undecodable | Some Directory | None => dflt
        end, w).
Proof.
  unfold load_json_or_default, path_exists, try_except, read_text, raise.
  unfold mbind, M_bind, mret, M_ret.
  destruct (w_fs w !! path) as [[s| |]|] eqn:Hf; simpl; rewrite ?Hf; try done.
  by destruct (json_loads s).
Qed.

Lemma write_if_changed_Ok path content w changed w' :
  write_if_changed path content w = Ok (changed, w') ->
  w_tick w' = w_tick w /\
  (changed = false /\ w' = w /\ w_fs w !! path = Some (Text content) \/
   changed = true /\ w_fs w !! path <> Some (Text content) /\
     w_fs w' = <[path := Text content]> (w_fs w)).
Proof.
  unfold write_if_changed, path_exists, read_text, write_text.
  unfold mbind, M_bind, mret, M_ret.
  destruct (w_fs w !! path) as [[s| |]|] eqn:Hf; simpl; rewrite ?Hf; try done.
  - case_bool_decide as Hs; simpl.
    + intros [= <- <-]. injection Hs as ->. auto.
    + rewrite Hf. intros [= <- <-]. simpl. split; [done|]. right.
      repeat split; congruence.
  - intros [= <- <-]. simpl. split; [done|]. right. done.
Qed.

(** ** Dictionaries *)

Lemma dict_get_set_eq {V} (k : string) (v : V) d :
  dict_get k (dict_set k v d) = Some v.
Proof.
  induction d as [|[k' v'] d IH]; simpl.
  - by rewrite String.eqb_refl.
  - destruct (String.eqb k k') eqn:He; simpl.
    + by rewrite String.eqb_refl.
    + by rewrite He.
Qed.

Lemma dict_get_set_ne {V} (k k' : string) (v : V) d :
  k <> k' -> dict_get k' (dict_set k v d) = dict_get k' d.
Proof.
  intros Hne. induction d as [|[k0 v0] d IH]; simpl.
  - destruct (String.eqb_spec k' k); [congruence|done].
  - destruct (String.eqb_spec k k0) as [->|Hk]; simpl.
    + destruct (String.eqb_spec k' k0); [congruence|done].
    + destruct (String.eqb_spec k' k0); [done|apply IH].
Qed.

Lemma dict_set_id {V} (k : string) (v : V) d :
  dict_get k d = Some v -> dict_set k v d = d.
Proof.
  induction d as [|[k0 v0] d IH]; simpl; [done|].
  destruct (String.eqb_spec k k0) as [->|Hk].
  - by intros [= ->].
  - intros H. by rewrite IH.
Qed.

(** ** The refresh *)

Lemma refresh_task_obj updated op d :
  refresh_task updated op (JObj d) =
    Ok (JObj (dict_set "action_plan" (build_action_plan op)
               (dict_set "matched_terms" (terms_json op)
                  (dict_set "score" (JInt (score op))
                     (dict_set "updated_at" (JStr updated) d))))).
Proof. done. Qed.

Lemma refresh_task_get updated op t t' k :
  refresh_task updated op t = Ok t' ->
  exists d d', t = JObj d /\ t' = JObj d' /\
    dict_get k d' =
      if String.eqb k "action_plan" then Some (build_action_plan op)
      else if String.eqb k "matched_terms" then Some (terms_json op)
      else if String.eqb k "score" then Some (JInt (score op))
      else if String.eqb k "updated_at" then Some (JStr updated)
      else dict_get k d.
Proof.
  destruct t as [| | | | |d]; try done. rewrite refresh_task_obj. intros [= <-].
  eexists _, _. split; [done|]. split; [done|].
  destruct (String.eqb_spec k "action_plan") as [->|H1];
    [by rewrite dict_get_set_eq|].
  rewrite dict_get_set_ne by done.
  destruct (String.eqb_spec k "matched_terms") as [->|H2];
    [by rewrite dict_get_set_eq|].
  rewrite dict_get_set_ne by done.
  destruct (String.eqb_spec k "score") as [->|H3];
    [by rewrite dict_get_set_eq|].
  rewrite dict_get_set_ne by done.
  destruct (String.eqb_spec k "updated_at") as [->|H4];
    [by rewrite dict_get_set_eq|].
  by rewrite dict_get_set_ne.
Qed.

Lemma refresh_task_same updated op t t' :
  refresh_task updated op t = Ok t' -> same_task t t'.
Proof.
  intros H. unfold same_task.
  destruct t as [| | | | |d]; try done.
  rewrite refresh_task_obj in H. injection H as <-.
  intros k Hk. unfold refreshed_fields in Hk.
  assert ("updated_at" <> k /\ "score" <> k /\ "matched_terms" <> k /\
          "action_plan" <> k) as (? & ? & ? & ?).
  { repeat split; intros <-; apply Hk; apply list_elem_of_In; simpl; tauto. }
  by rewrite !dict_get_set_ne.
Qed.

Lemma refresh_task_link updated op t t' :
  refresh_task updated op t = Ok t' -> task_link t' = task_link t.
Proof.
  intros H. apply refresh_task_same in H.
  destruct t as [| | | | |d], t' as [| | | | |d']; try done.
  unfold task_link. simpl in H. rewrite H; [done|]. unfold refreshed_fields.
  intros Hin%list_elem_of_In. simpl in Hin. intuition discriminate.
Qed.

Lemma refresh_task_idem updated op t t' :
  refresh_task updated op t = Ok t' -> refresh_task updated op t' = Ok t'.
Proof.
  destruct t as [| | | | |d]; try done. rewrite refresh_task_obj. intros [= <-].
  rewrite refresh_task_obj. do 2 f_equal.
  set (d1 := dict_set "updated_at" (JStr updated) d).
  set (d2 := dict_set "score" (JInt (score op)) d1).
  set (d3 := dict_set "matched_terms" (terms_json op) d2).
  set (d4 := dict_set "action_plan" (build_action_plan op) d3).
  assert (H1 : dict_set "updated_at" (JStr updated) d4 = d4).
  { apply dict_set_id. subst d4 d3 d2 d1.
    rewrite !dict_get_set_ne by done. apply dict_get_set_eq. }
  rewrite H1.
  assert (H2 : dict_set "score" (JInt (score op)) d4 = d4).
  { apply dict_set_id. subst d4 d3 d2.
    rewrite !dict_get_set_ne by done. apply dict_get_set_eq. }
  rewrite H2.
  assert (H3 : dict_set "matched_terms" (terms_json op) d4 = d4).
  { apply dict_set_id. subst d4 d3.
    rewrite !dict_get_set_ne by done. apply dict_get_set_eq. }
  rewrite H3.
  apply dict_set_id. subst d4. apply dict_get_set_eq.
Qed.

Lemma same_task_refl t : same_task t t.
Proof. by destruct t. Qed.

Lemma same_task_trans t1 t2 t3 :
  same_task t1 t2 -> same_task t2 t3 -> same_task t1 t3.
Proof.
  destruct t1, t2, t3; simpl; try congruence.
  intros H1 H2 k Hk. by rewrite H2, H1.
Qed.

Lemma task_link_new_task op rel created updated :
  task_link (new_task op rel created updated) = Some (link (item op)).
Proof. done. Qed.

(** ** The index [existing_by_source] *)

Lemma index_ok_nil : index_ok [] [].
Proof. intros k. simpl. intros t Ht. by apply elem_of_nil in Ht. Qed.

Lemma indexed_app_other tasks t k j :
  indexed tasks k j -> task_link t <> Some k -> indexed (tasks ++ [t]) k j.
Proof.
  intros [(t0 & Ht0 & Hl) Hlast] Hne. split.
  - exists t0. split; [|done]. by apply lookup_app_l_Some.
  - intros j' t' Hj Ht'.
    apply lookup_app_Some in Ht' as [Ht'|[Hlen Ht']].
    + by eapply Hlast.
    + apply list_lookup_singleton_Some in Ht' as [_ <-]. done.
Qed.

Lemma index_ok_skip index tasks t :
  index_ok index tasks -> task_link t = None -> index_ok index (tasks ++ [t]).
Proof.
  intros Hok Ht k. specialize (Hok k).
  destruct (dict_get k index) as [j|].
  - apply indexed_app_other; [done|]. by rewrite Ht.
  - intros t' [Hin|Hin%list_elem_of_singleton]%elem_of_app; [by apply Hok|].
    subst t'. by rewrite Ht.
Qed.

Lemma index_ok_add index tasks t s :
  index_ok index tasks -> task_link t = Some s ->
  index_ok (dict_set s (length tasks) index) (tasks ++ [t]).
Proof.
  intros Hok Ht k. specialize (Hok k).
  destruct (decide (s = k)) as [->|Hne].
  - rewrite dict_get_set_eq. split.
    + exists t. split; [|done]. by apply list_lookup_middle.
    + intros j' t' Hj Ht'. apply lookup_lt_Some in Ht'.
      rewrite length_app in Ht'. simpl in Ht'. lia.
  - rewrite dict_get_set_ne by done.
    destruct (dict_get k index) as [j|].
    + apply indexed_app_other; [done|]. rewrite Ht. congruence.
    + intros t' [Hin|Hin%list_elem_of_singleton]%elem_of_app; [by apply Hok|].
      subst t'. rewrite Ht. congruence.
Qed.

Lemma index_ok_update index tasks i t t' :
  index_ok index tasks -> tasks !! i = Some t -> task_link t' = task_link t ->
  index_ok index (<[i := t']> tasks).
Proof.
  intros Hok Hi Hl k. specialize (Hok k).
  assert (Hlook : forall j x, <[i := t']> tasks !! j = Some x ->
            exists y, tasks !! j = Some y /\ task_link x = task_link y).
  { intros j x Hx. destruct (decide (i = j)) as [->|Hne].
    - rewrite list_lookup_insert_eq in Hx by (by eapply lookup_lt_Some).
      injection Hx as <-. eauto.
    - rewrite list_lookup_insert_ne in Hx by done. eauto. }
  destruct (dict_get k index) as [j|].
  - destruct Hok as [(t0 & Ht0 & Hl0) Hlast]. split.
    + destruct (decide (i = j)) as [->|Hne].
      * exists t'. rewrite list_lookup_insert_eq by (by eapply lookup_lt_Some).
        split; [done|]. rewrite Hl. congruence.
      * exists t0. by rewrite list_lookup_insert_ne.
    + intros j' x Hj Hx. apply Hlook in Hx as (y & Hy & ->). by eapply Hlast.
  - intros x Hx. apply list_elem_of_lookup in Hx as [j Hx].
    apply Hlook in Hx as (y & Hy & ->). apply Hok.
    by eapply list_elem_of_lookup_2.
Qed.

Lemma index_ok_inj index tasks k1 k2 i :
  index_ok index tasks ->
  dict_get k1 index = Some i -> dict_get k2 index = Some i -> k1 = k2.
Proof.
  intros Hok H1 H2. pose proof (Hok k1) as Hk1. pose proof (Hok k2) as Hk2.
  rewrite H1 in Hk1. rewrite H2 in Hk2.
  destruct Hk1 as [(t1 & Ht1 & Hl1) _], Hk2 as [(t2 & Ht2 & Hl2) _].
  congruence.
Qed.

Lemma index_ok_bound index tasks k i :
  index_ok index tasks -> dict_get k index = Some i ->
  exists d, tasks !! i = Some (JObj d) /\ task_link (JObj d) = Some k.
Proof.
  intros Hok H. specialize (Hok k). rewrite H in Hok.
  destruct Hok as [(t & Ht & Hl) _].
  destruct t as [| | | | |d]; try done. eauto.
Qed.

Lemma index_tasks_inv tasks : forall i index index' pre,
  index_tasks i tasks index = Ok index' ->
  length pre = i -> index_ok index pre ->
  index_ok index' (pre ++ tasks).
Proof.
  induction tasks as [|t tasks IH]; intros i index index' pre Hrun Hlen Hok.
  - simpl in Hrun. injection Hrun as <-. by rewrite app_nil_r.
  - cbn [index_tasks] in Hrun.
    apply res_bind_Ok in Hrun as (src & Hsrc & Hrun).
    destruct t as [| | | | |d]; try done. simpl in Hsrc. injection Hsrc as Hsrc.
    replace (pre ++ JObj d :: tasks) with ((pre ++ [JObj d]) ++ tasks)
      by (by rewrite <- app_assoc).
    assert (Hlen' : length (pre ++ [JObj d]) = S i)
      by (rewrite length_app; simpl; lia).
    destruct (py_truthy src) eqn:Htruthy.
    + apply res_bind_Ok in Hrun as (key & Hkey & Hrun).
      destruct src as [| | | | |sd]; try done.
      simpl in Hkey. injection Hkey as Hkey.
      assert (Hd : dict_get "source" d = Some (JObj sd)).
      { destruct (dict_get "source" d); [congruence|done]. }
      destruct key as [|b|n|s|l|o]; try done.
      * eapply IH; [exact Hrun|done|]. apply index_ok_skip; [done|].
        unfold task_link. rewrite Hd, Htruthy.
        destruct (dict_get "link" sd) as [x|]; [by subst x|done].
      * eapply IH; [exact Hrun|done|]. apply index_ok_skip; [done|].
        unfold task_link. rewrite Hd, Htruthy.
        destruct (dict_get "link" sd) as [x|]; [by subst x|done].
      * eapply IH; [exact Hrun|done|]. apply index_ok_skip; [done|].
        unfold task_link. rewrite Hd, Htruthy.
        destruct (dict_get "link" sd) as [x|]; [by subst x|done].
      * eapply IH; [exact Hrun|done|]. subst i. apply index_ok_add; [done|].
        unfold task_link. rewrite Hd, Htruthy.
        destruct (dict_get "link" sd) as [x|]; [by subst x|congruence].
    + eapply IH; [exact Hrun|done|]. apply index_ok_skip; [done|].
      unfold task_link.
      destruct (dict_get "source" d) as [x|]; [|done]. subst x.
      destruct src; try done. by rewrite Htruthy.
Qed.

Lemma index_tasks_ok tasks index :
  index_tasks 0 tasks [] = Ok index -> index_ok index tasks.
Proof.
  intros H. apply (index_tasks_inv tasks 0 [] index []) in H; [done..|].
  apply index_ok_nil.
Qed.

(** The index only depends on the [source] of the tasks. *)
Lemma index_tasks_ext tasks tasks' : forall i index,
  Forall2 (fun t t' => py_get t "source" JNull = py_get t' "source" JNull) tasks tasks' ->
  index_tasks i tasks index = index_tasks i tasks' index.
Proof.
  intros i index H. revert i index.
  induction H as [|t t' tasks tasks' Ht _ IH]; intros i index; [done|].
  cbn [index_tasks]. rewrite Ht.
  destruct (py_get t' "source" JNull) as [src|e]; [|done]. simpl.
  unfold mbind, res_bind.
  destruct (py_truthy src); [|apply IH].
  destruct (py_get src "link" (JStr "")) as [[]|]; try done; apply IH.
Qed.

(** ** One step of the merge loop *)

Lemma now_utc_Ok clock w r :
  now_utc clock w = Ok r <-> r = (clock (w_tick w), World (S (w_tick w)) (w_fs w)).
Proof. unfold now_utc. split; [by intros [= <-] | by intros ->]. Qed.

(** The three ways in which a step that succeeds can go: refresh of the
    task that the index has for the link, silent skip when the budget is
    used up, creation of a task and its ticket. *)
Lemma merge_one_inv clock args st op w st' w' :
  merge_one clock args st op w = Ok (st', w') ->
  (exists i t t',
      dict_get (link (item op)) (ms_index st) = Some i /\
      arr_items (ms_tasks st) !! i = Some t /\
      refresh_task (isoformat (clock (w_tick w))) op t = Ok t' /\
      st' = {| ms_tasks := JArr (<[i := t']> (arr_items (ms_tasks st)));
               ms_index := ms_index st;
               ms_created := ms_created st;
               ms_paths := ms_paths st |} /\
      w' = World (S (w_tick w)) (w_fs w))
  \/ (dict_get (link (item op)) (ms_index st) = None /\
      Z.max 0 (max_new_tickets args) <= ms_created st /\
      st' = st /\ w' = w)
  \/ (dict_get (link (item op)) (ms_index st) = None /\
      ms_created st < Z.max 0 (max_new_tickets args) /\
      exists items,
        let rel := ticket_path_of args (clock (w_tick w)) op in
        ms_tasks st = JArr items /\
        st' = {| ms_tasks :=
                   JArr (items ++
                     [new_task op rel (isoformat (clock (S (w_tick w))))
                        (isoformat (clock (S (S (w_tick w)))))]);
                 ms_index := dict_set (link (item op)) (length items) (ms_index st);
                 ms_created := ms_created st + 1;
                 ms_paths := ms_paths st ++ [rel] |} /\
        w_tick w' = S (S (S (w_tick w))) /\
        (w' = World (w_tick w') (w_fs w) /\
           w_fs w !! rel = Some (Text (create_ticket_content op))
         \/ w_fs w' = <[rel := Text (create_ticket_content op)]> (w_fs w))).
Proof.
  unfold merge_one. intros H.
  destruct (dict_get (link (item op)) (ms_index st)) as [i|] eqn:Hidx.
  - left. destruct (arr_items (ms_tasks st) !! i) as [t|] eqn:Ht; [|done].
    inv_run H. apply now_utc_Ok in Hstep. injection Hstep as -> ->.
    apply lift_Ok in Hstep0 as (t' & Ht' & Hw). injection Hw as -> ->.
    injection H as -> ->.
    exists i, t, t'. done.
  - right. destruct (Z.leb_spec (Z.max 0 (max_new_tickets args)) (ms_created st))
      as [Hle|Hlt].
    + left. apply ret_Ok in H. injection H as <- <-. done.
    + right. split; [done|]. split; [done|].
      inv_run H.
      apply now_utc_Ok in Hstep. injection Hstep as -> ->.
      apply now_utc_Ok in Hstep0. injection Hstep0 as -> ->.
      apply now_utc_Ok in Hstep1. injection Hstep1 as -> ->.
      apply lift_Ok in Hstep2 as (tasks' & Happ & Hw). injection Hw as -> ->.
      injection H as -> ->. simpl in *.
      destruct (ms_tasks st) as [| | | |items|] eqn:Htasks; try done.
      simpl in Happ. injection Happ as <-.
      exists items. cbv zeta. split; [done|].
      apply write_if_changed_Ok in Hstep3 as [Htick Hfs]. simpl in Htick.
      split; [done|]. split; [done|].
      destruct Hfs as [(_ & -> & Hsame)|(_ & _ & Hnew)].
      * left. simpl. done.
      * right. done.
Qed.

(** ** The merge loop *)

Lemma unseen_cons index op rest :
  unseen index (op :: rest) =
    match dict_get (link (item op)) index with
    | Some _ => unseen index rest
    | None => op :: unseen index rest
    end.
Proof.
  unfold unseen, dict_mem. simpl.
  by destruct (dict_get (link (item op)) index).
Qed.

Lemma unseen_dict_set index k n rest :
  k ∉ map op_link rest ->
  unseen (dict_set k n index) rest = unseen index rest.
Proof.
  unfold unseen. induction rest as [|op rest IH]; [done|].
  intros Hk. simpl in Hk. apply not_elem_of_cons in Hk as [Hne Hk].
  unfold op_link in Hne. cbn [List.filter]. rewrite IH by done.
  assert (dict_mem (link (item op)) (dict_set k n index)
          = dict_mem (link (item op)) index) as ->; [|done].
  unfold dict_mem. by rewrite dict_get_set_ne.
Qed.

Lemma unseen_elem index op top :
  op ∈ unseen index top <-> op ∈ top /\ dict_get (link (item op)) index = None.
Proof.
  unfold unseen. rewrite !list_elem_of_In, filter_In, <- list_elem_of_In.
  unfold dict_mem. destruct (dict_get (link (item op)) index); simpl;
    intuition congruence.
Qed.

Lemma NoDup_op_link op op' top :
  NoDup (map op_link top) -> op ∈ top -> op' ∈ top ->
  link (item op) = link (item op') -> op = op'.
Proof.
  induction top as [|x top IH]; [by intros _ ?%elem_of_nil|].
  simpl. intros [Hx Hnd]%NoDup_cons Hop Hop' Hl.
  apply elem_of_cons in Hop as [->|Hop]; apply elem_of_cons in Hop' as [->|Hop'].
  - done.
  - exfalso. apply Hx. unfold op_link at 1. rewrite Hl.
    by apply (list_elem_of_fmap_2 op_link).
  - exfalso. apply Hx. unfold op_link at 1. rewrite <- Hl.
    by apply (list_elem_of_fmap_2 op_link).
  - by apply IH.
Qed.

Lemma merge_post_nil clock args st w :
  index_ok (ms_index st) (arr_items (ms_tasks st)) ->
  merge_post clock args [] st w st w (arr_items (ms_tasks st)) [] [] [].
Proof.
  intros Hok. split; try done.
  - rewrite app_nil_r. by destruct (ms_tasks st).
  - by rewrite app_nil_r.
  - intros i t Ht. exists t. split; [done|]. right. split; [|done].
    by intros op ?%elem_of_nil.
  - unfold unseen. simpl. by rewrite take_nil.
  - simpl. lia.
  - by rewrite app_nil_r.
  - by intros path ?%elem_of_nil.
Qed.

Lemma arr_items_lookup_arr v i (t : json) :
  arr_items v !! i = Some t -> exists l, v = JArr l.
Proof. destruct v; simpl; try done. eauto. Qed.

Lemma room_zero args st :
  budget args <= ms_created st -> room args st = 0%nat.
Proof. unfold room. lia. Qed.

Lemma room_succ args st :
  ms_created st < budget args ->
  room args st = S (Z.to_nat (budget args - (ms_created st + 1))).
Proof. unfold room. lia. Qed.

(** The refresh step, seen from the state before it. *)
Lemma merge_post_refresh clock args op rest st w i t t' st' w' olds news made paths :
  index_ok (ms_index st) (arr_items (ms_tasks st)) ->
  NoDup (map op_link (op :: rest)) ->
  hits (ms_index st) op i ->
  arr_items (ms_tasks st) !! i = Some t ->
  refresh_task (isoformat (clock (w_tick w))) op t = Ok t' ->
  merge_post clock args rest
    {| ms_tasks := JArr (<[i := t']> (arr_items (ms_tasks st)));
       ms_index := ms_index st;
       ms_created := ms_created st;
       ms_paths := ms_paths st |}
    (World (S (w_tick w)) (w_fs w)) st' w' olds news made paths ->
  merge_post clock args (op :: rest) st w st' w' olds news made paths.
Proof.
  intros Hok Hnd Hhit Ht Hrefresh [].
  unfold room in *.
  cbn [ms_tasks ms_index ms_created ms_paths w_tick w_fs arr_items] in *.
  cbn [map] in Hnd. apply NoDup_cons in Hnd as [Hfresh Hnd].
  destruct (arr_items_lookup_arr _ _ _ Ht) as [l Hl].
  split; unfold room; cbn [ms_tasks ms_index ms_created ms_paths w_tick w_fs].
  - by rewrite Hl.
  - done.
  - by rewrite length_insert in mp_length0.
  - intros j tj Htj.
    destruct (decide (i = j)) as [<-|Hne].
    + assert (tj = t) as -> by congruence.
      destruct (mp_olds0 i t') as (t'' & Hold & Hcase).
      { apply list_lookup_insert_eq. by eapply lookup_lt_Some. }
      exists t''. split; [done|].
      destruct Hcase as [(op' & n & Hin & Hhit' & _)|[_ ->]].
      * exfalso. apply Hfresh.
        assert (link (item op) = link (item op')) as Heq
          by (eapply index_ok_inj; [exact Hok|exact Hhit|exact Hhit']).
        unfold op_link at 1. rewrite Heq.
        by apply (list_elem_of_fmap_2 op_link).
      * left. exists op, (w_tick w). split; [apply elem_of_cons; by left|]. done.
    + destruct (mp_olds0 j tj) as (t'' & Hold & Hcase).
      { by rewrite list_lookup_insert_ne. }
      exists t''. split; [done|].
      destruct Hcase as [(op' & n & Hin & Hhit' & Hr)|[Hnone ->]].
      * left. exists op', n. split; [apply elem_of_cons; by right|]. done.
      * right. split; [|done]. intros op' [->|Hin]%elem_of_cons.
        -- unfold hits in *. congruence.
        -- by apply Hnone.
  - rewrite unseen_cons. unfold hits in Hhit. by rewrite Hhit.
  - done.
  - done.
  - done.
  - done.
  - done.
  - done.
  - done.
  - lia.
  - done.
  - done.
  - done.
Qed.

(** The skip step. *)
Lemma merge_post_skip clock args op rest st w st' w' olds news made paths :
  dict_get (link (item op)) (ms_index st) = None ->
  budget args <= ms_created st ->
  merge_post clock args rest st w st' w' olds news made paths ->
  merge_post clock args (op :: rest) st w st' w' olds news made paths.
Proof.
  intros Hmiss Hfull [].
  split; try done.
  - intros j tj Htj. destruct (mp_olds0 j tj Htj) as (t'' & Hold & Hcase).
    exists t''. split; [done|].
    destruct Hcase as [(op' & n & Hin & Hhit' & Hr)|[Hnone ->]].
    + left. exists op', n. split; [apply elem_of_cons; by right|]. done.
    + right. split; [|done]. intros op' [->|Hin]%elem_of_cons.
      * unfold hits. congruence.
      * by apply Hnone.
  - rewrite unseen_cons, Hmiss. rewrite room_zero in * by done.
    rewrite take_0 in *. done.
Qed.

Lemma drop_last_singleton {A} (l : list A) n x :
  length l = S n -> l !! n = Some x -> drop n l = [x].
Proof.
  revert l. induction n as [|n IH]; intros [|y l]; simpl; try done.
  - intros Hlen [= ->]. by destruct l.
  - intros Hlen Hx. apply IH; [lia|done].
Qed.

(** The creation step. *)
Lemma merge_post_create clock args op rest st w items w1 st' w' olds1 news1 made1 paths1 n1 n2 n3 :
  let rel := ticket_path_of args (clock n1) op in
  let task := new_task op rel (isoformat (clock n2)) (isoformat (clock n3)) in
  index_ok (ms_index st) (arr_items (ms_tasks st)) ->
  NoDup (map op_link (op :: rest)) ->
  dict_get (link (item op)) (ms_index st) = None ->
  ms_created st < budget args ->
  ms_tasks st = JArr items ->
  (w_tick w <= w_tick w1)%nat ->
  (w_fs w1 = w_fs w \/ w_fs w1 = <[rel := Text (create_ticket_content op)]> (w_fs w)) ->
  w_fs w1 !! rel = Some (Text (create_ticket_content op)) ->
  merge_post clock args rest
    {| ms_tasks := JArr (items ++ [task]);
       ms_index := dict_set (link (item op)) (length items) (ms_index st);
       ms_created := ms_created st + 1;
       ms_paths := ms_paths st ++ [rel] |}
    w1 st' w' olds1 news1 made1 paths1 ->
  merge_post clock args (op :: rest) st w st' w'
    (take (length items) olds1) (task :: news1) (op :: made1) (rel :: paths1).
Proof.
  intros rel task Hok Hnd Hmiss Hroom Hitems Htick Hfs Hrel [].
  unfold room in *.
  cbn [ms_tasks ms_index ms_created ms_paths w_tick w_fs arr_items] in *.
  cbn [map] in Hnd. apply NoDup_cons in Hnd as [Hfresh Hnd].
  rewrite Hitems in Hok. cbn [arr_items] in Hok.
  assert (Hok1 : index_ok (dict_set (link (item op)) (length items) (ms_index st))
                   (items ++ [task])).
  { apply index_ok_add; [done|]. apply task_link_new_task. }
  assert (Hlen1 : length olds1 = S (length items)).
  { rewrite mp_length0, length_app. simpl. lia. }
  assert (Hlast : olds1 !! length items = Some task).
  { destruct (mp_olds0 (length items) task) as (t'' & Hold & Hcase).
    { by apply list_lookup_middle. }
    destruct Hcase as [(op' & n & Hin & Hhit' & _)|[_ ->]]; [|done].
    exfalso. apply Hfresh.
    assert (link (item op) = link (item op')) as Heq.
    { eapply index_ok_inj; [exact Hok1| |exact Hhit']. apply dict_get_set_eq. }
    unfold op_link at 1. rewrite Heq. by apply (list_elem_of_fmap_2 op_link). }
  assert (Hdrop : drop (length items) olds1 = [task])
    by (by apply drop_last_singleton).
  assert (Hsplit : olds1 ++ news1 = take (length items) olds1 ++ task :: news1).
  { rewrite <- (take_drop (length items) olds1) at 1. rewrite Hdrop.
    by rewrite <- app_assoc. }
  assert (Hmissne : forall k, dict_get k (ms_index st) <> None ->
            link (item op) <> k) by (intros k Hk <-; done).
  split; unfold room; cbn [ms_tasks ms_index ms_created ms_paths w_tick w_fs arr_items].
  - rewrite Hitems. rewrite mp_tasks0. by rewrite Hsplit.
  - by rewrite mp_items0.
  - rewrite Hitems. cbn [arr_items]. rewrite length_take. lia.
  - rewrite Hitems. cbn [arr_items]. intros j tj Htj.
    pose proof (lookup_lt_Some _ _ _ Htj) as Hj.
    destruct (mp_olds0 j tj) as (t'' & Hold & Hcase).
    { by apply lookup_app_l_Some. }
    exists t''. split; [by rewrite lookup_take_lt|].
    assert (Hsame : forall op', op' ∈ rest ->
              dict_get (link (item op'))
                (dict_set (link (item op)) (length items) (ms_index st))
              = dict_get (link (item op')) (ms_index st)).
    { intros op' Hin. apply dict_get_set_ne. intros Heq. apply Hfresh.
      unfold op_link at 1. rewrite Heq. by apply (list_elem_of_fmap_2 op_link). }
    destruct Hcase as [(op' & n & Hin & Hhit' & Hr)|[Hnone ->]].
    + left. exists op', n. split; [apply elem_of_cons; by right|].
      split; [|done]. unfold hits in *. by rewrite <- Hsame.
    + right. split; [|done]. intros op' [->|Hin]%elem_of_cons.
      * unfold hits. congruence.
      * unfold hits. rewrite <- Hsame by done. by apply Hnone.
  - rewrite unseen_cons, Hmiss.
    replace (Z.to_nat (budget args - ms_created st))
      with (S (Z.to_nat (budget args - (ms_created st + 1)))) by lia.
    cbn [take]. f_equal. rewrite mp_made0.
    by rewrite unseen_dict_set.
  - rewrite mp_created0. cbn [length]. lia.
  - constructor; [|done]. by exists n1, n2, n3.
  - rewrite mp_paths0. by rewrite <- app_assoc.
  - constructor; [|done]. by exists n1.
  - done.
  - intros k i Hk. apply mp_index_old0. rewrite dict_get_set_ne; [done|].
    apply Hmissne. by rewrite Hk.
  - intros k Hk Hmade. apply mp_index_new0.
    + rewrite dict_get_set_ne; [done|]. apply Hmade. apply elem_of_cons. by left.
    + intros op' Hin. apply Hmade. apply elem_of_cons. by right.
  - lia.
  - intros path Hpath. apply not_elem_of_cons in Hpath as [Hne Hpath].
    rewrite mp_fs_other0 by done.
    destruct Hfs as [->| ->]; [done|]. by rewrite lookup_insert_ne.
  - done.
  - intros path Hpath.
    destruct (decide (path ∈ paths1)) as [Hin|Hnin].
    + destruct (mp_fs_paths0 path Hin) as (op' & Hop' & Hfile).
      exists op'. split; [apply elem_of_cons; by right|done].
    + apply elem_of_cons in Hpath as [->|Hpath]; [|done].
      exists op. split; [apply elem_of_cons; by left|].
      by rewrite mp_fs_other0.
Qed.

(** What every successful run of the merge loop has done. *)
Lemma merge_top_spec clock args top : forall st w st' w',
  merge_top clock args st top w = Ok (st', w') ->
  index_ok (ms_index st) (arr_items (ms_tasks st)) ->
  NoDup (map op_link top) ->
  exists olds news made paths,
    merge_post clock args top st w st' w' olds news made paths.
Proof.
  induction top as [|op rest IH]; intros st w st' w' Hrun Hok Hnd.
  - simpl in Hrun. apply ret_Ok in Hrun. injection Hrun as <- <-.
    eexists _, _, _, _. by apply merge_post_nil.
  - cbn [merge_top] in Hrun. apply bind_Ok in Hrun as (st1 & w1 & Hone & Hrun).
    pose proof Hnd as Hnd'. cbn [map] in Hnd'. apply NoDup_cons in Hnd' as [_ Hnd'].
    apply merge_one_inv in Hone
      as [(i & t & t' & Hhit & Ht & Hr & -> & ->)
         |[(Hmiss & Hfull & -> & ->)
          |(Hmiss & Hroom & items & Hitems & -> & Htick & Hfs)]].
    + destruct (IH _ _ _ _ Hrun) as (olds & news & made & paths & Hpost); [|done|].
      { cbn [ms_tasks ms_index arr_items].
        eapply index_ok_update; [done..|]. by eapply refresh_task_link. }
      exists olds, news, made, paths. by eapply merge_post_refresh.
    + destruct (IH _ _ _ _ Hrun Hok Hnd') as (olds & news & made & paths & Hpost).
      exists olds, news, made, paths. by apply merge_post_skip.
    + destruct (IH _ _ _ _ Hrun) as (olds & news & made & paths & Hpost); [|done|].
      { cbn [ms_tasks ms_index arr_items]. rewrite Hitems in Hok.
        apply index_ok_add; [done|]. apply task_link_new_task. }
      eexists _, _, _, _.
      eapply (merge_post_create clock args op rest st w items w1); try done.
      * lia.
      * destruct Hfs as [[-> _]|Hfs]; [by left|]. by right.
      * destruct Hfs as [[-> Hfile]|Hfs]; [done|].
        rewrite Hfs. apply lookup_insert_eq.
Qed.

(** ** From the feeds to the top opportunities *)

Lemma dedupe_elem seen items it :
  it ∈ dedupe seen items -> it ∈ items /\ link it ∉ seen.
Proof.
  revert seen. induction items as [|x items IH]; intros seen; simpl.
  - by intros ?%elem_of_nil.
  - case_bool_decide as Hseen.
    + intros [? ?]%IH. split; [apply elem_of_cons; by right|done].
    + intros [->|Hin]%elem_of_cons.
      * split; [apply elem_of_cons; by left|done].
      * apply IH in Hin as [? Hn]. split; [apply elem_of_cons; by right|].
        intros ?. apply Hn. apply elem_of_cons. by right.
Qed.

Lemma dedupe_NoDup seen items : NoDup (map link (dedupe seen items)).
Proof.
  revert seen. induction items as [|x items IH]; intros seen; simpl.
  - constructor.
  - case_bool_decide as Hseen; [apply IH|].
    simpl. apply NoDup_cons. split; [|apply IH].
    intros (y & Hy & Hin)%list_elem_of_fmap.
    apply dedupe_elem in Hin as [_ Hn]. apply Hn. rewrite <- Hy.
    apply elem_of_cons. by left.
Qed.

Lemma dedupe_sublist seen items : (dedupe seen items) `sublist_of` items.
Proof.
  revert seen. induction items as [|x items IH]; intros seen; simpl.
  - constructor.
  - case_bool_decide; [apply sublist_cons, IH | apply sublist_skip, IH].
Qed.

Lemma dedupe_first seen items it :
  it ∈ items -> link it ∉ seen ->
  exists pre first post,
    items = pre ++ first :: post /\ link first = link it /\
    (link it ∉ map link pre) /\ first ∈ dedupe seen items.
Proof.
  revert seen. induction items as [|x items IH]; intros seen Hin Hseen.
  - by apply elem_of_nil in Hin.
  - destruct (decide (link x = link it)) as [Heq|Hne].
    + exists [], x, items. simpl. repeat split; [done| |].
      * by intros ?%elem_of_nil.
      * rewrite bool_decide_eq_false_2 by (by rewrite Heq).
        apply elem_of_cons. by left.
    + apply elem_of_cons in Hin as [->|Hin]; [done|].
      assert (Hgo : forall seen', link it ∉ seen' ->
                exists pre first post,
                  items = pre ++ first :: post /\ link first = link it /\
                  (link it ∉ map link pre) /\ first ∈ dedupe seen' items)
        by (intros; by apply IH).
      simpl. case_bool_decide as Hx.
      * destruct (Hgo seen Hseen) as (pre & first & post & -> & ? & Hpre & ?).
        exists (x :: pre), first, post. repeat split; try done.
        simpl. intros [?|?]%elem_of_cons; [congruence|done].
      * destruct (Hgo (link x :: seen)) as (pre & first & post & -> & ? & Hpre & ?).
        { intros [?|?]%elem_of_cons; [congruence|done]. }
        exists (x :: pre), first, post. repeat split; try done.
        -- simpl. intros [?|?]%elem_of_cons; [congruence|done].
        -- apply elem_of_cons. by right.
Qed.

Lemma score_item_now_Ok clock it w :
  exists now,
    score_item_now clock it w =
      Ok (score_item now it,
          World (w_tick w + (match published_at it with Some _ => 1 | None => 0 end)) (w_fs w)).
Proof.
  unfold score_item_now. destruct (published_at it) as [p|] eqn:Hp.
  - exists (clock (w_tick w)). unfold mbind, M_bind, now_utc, mret, M_ret.
    do 3 f_equal. lia.
  - exists 0. unfold mret, M_ret. destruct w as [t fs]. simpl.
    do 3 f_equal. lia.
Qed.

(** The scoring loop never fails and leaves the files alone; it keeps the
    order of the items. *)
Lemma score_all_Ok clock items : forall w,
  exists ops w',
    score_all clock items w = Ok (ops, w') /\
    w_fs w' = w_fs w /\ (w_tick w <= w_tick w')%nat /\
    (map item ops) `sublist_of` items /\
    Forall (fun op => exists now, score_item now (item op) = Some op) ops.
Proof.
  induction items as [|it items IH]; intros w.
  - exists [], w. repeat split; try done.
  - destruct (score_item_now_Ok clock it w) as [now Hnow].
    destruct (IH (World (w_tick w + (match published_at it with Some _ => 1 | None => 0 end)) (w_fs w)))
      as (ops & w' & Hrun & Hfs & Htick & Hsub & Hall).
    simpl in Hfs, Htick.
    destruct (score_item now it) as [op|] eqn:Hop.
    + exists (op :: ops), w'. cbn [score_all].
      unfold mbind, M_bind at 1. rewrite Hnow.
      unfold mbind, M_bind at 1. rewrite Hrun. unfold mret, M_ret.
      repeat split; try done; [lia| |].
      * simpl. apply score_item_Some in Hop as (_ & -> & _). by apply sublist_skip.
      * constructor; [|done]. exists now.
        pose proof (score_item_Some _ _ _ Hop) as (_ & -> & _). done.
    + exists ops, w'. cbn [score_all].
      unfold mbind, M_bind at 1. rewrite Hnow.
      unfold mbind, M_bind at 1. rewrite Hrun. unfold mret, M_ret.
      repeat split; try done; [lia|]. by apply sublist_cons.
Qed.

Lemma take_top_sublist n l : (take_top n l) `sublist_of` l.
Proof. apply sublist_take. Qed.

Lemma top_links_NoDup n ops items :
  NoDup (map link items) -> (map item ops) `sublist_of` items ->
  NoDup (map op_link (take_top n (sort_opportunities ops))).
Proof.
  intros Hnd Hsub.
  eapply sublist_NoDup; [|apply (fmap_sublist op_link), take_top_sublist].
  change (NoDup (op_link <$> sort_opportunities ops)).
  rewrite sort_opportunities_perm.
  assert (Heq : op_link <$> ops = link <$> (item <$> ops)).
  { rewrite <- list_fmap_compose. done. }
  rewrite Heq. eapply sublist_NoDup; [exact Hnd|].
  by apply (fmap_sublist link).
Qed.

(** ** The run up to the new board *)

Lemma index_tasks_iter v l index :
  py_iter v = Ok l -> index_tasks 0 l [] = Ok index -> l = arr_items v.
Proof.
  destruct v as [| | |s|items|d]; simpl; try done.
  - intros [= <-]. destruct s; [done|]. simpl. done.
  - by intros [= <-].
  - intros [= <-]. destruct d as [|[k x] d]; [done|]. simpl. done.
Qed.

(** The steps of a successful [reconcile]. *)
Lemma reconcile_inv json_loads clock args feeds w board' st' scanned scored top errors w' :
  reconcile json_loads clock args feeds w
    = Ok ((board', st', (scanned, scored, top, errors)), w') ->
  let deduped := dedupe [] (fst (collect_feeds feeds)) in
  exists ops w1 d index w2 d',
    score_all clock deduped w = Ok (ops, w1) /\
    top = take_top (max_opportunities args) (sort_opportunities ops) /\
    scanned = length deduped /\ scored = length ops /\
    errors = snd (collect_feeds feeds) /\
    JObj d = match board_on_disk json_loads args w with
             | Some v => v
             | None => default_board (isoformat (clock (w_tick w1)))
             end /\
    match dict_get "tasks" d with Some v => v | None => JArr [] end
      = tasks_on_disk json_loads args w /\
    index_tasks 0 (arr_items (tasks_on_disk json_loads args w)) [] = Ok index /\
    merge_top clock args
      {| ms_tasks := tasks_on_disk json_loads args w; ms_index := index;
         ms_created := 0; ms_paths := [] |}
      top (World (S (w_tick w1)) (w_fs w)) = Ok (st', w2) /\
    push_history
      (history_record (isoformat (clock (S (w_tick w2)))) (length deduped)
         (length top) (ms_created st'))
      (dict_set "updated_at" (JStr (isoformat (clock (w_tick w2))))
         (dict_set "tasks" (ms_tasks st') d)) = Ok d' /\
    board' = JObj d' /\
    w' = World (S (S (w_tick w2))) (w_fs w2).
Proof.
  intros H deduped. unfold reconcile in H. subst deduped.
  destruct (collect_feeds feeds) as [fetched errs] eqn:Hfeeds.
  cbn [fst snd] in *. set (deduped := dedupe [] fetched) in *.
  apply bind_Ok in H as (ops & w1 & Hscore & H).
  destruct (score_all_Ok clock deduped w) as (ops0 & w10 & Hs & Hfs1 & _).
  rewrite Hs in Hscore. injection Hscore as -> ->.
  apply bind_Ok in H as (now & w1' & Hnow & H).
  apply now_utc_Ok in Hnow. injection Hnow as -> ->.
  apply bind_Ok in H as (board & wl & Hload & H).
  rewrite load_json_or_default_spec in Hload. injection Hload as <- <-.
  cbn [w_fs w_tick] in *.
  apply bind_Ok in H as (existing & wg & Hget & H).
  apply lift_Ok in Hget as (existing' & Hget & Heq). injection Heq as -> ->.
  apply bind_Ok in H as (task_list & wi & Hiter & H).
  apply lift_Ok in Hiter as (tl' & Hiter & Heq). injection Heq as -> ->.
  apply bind_Ok in H as (index & wx & Hindex & H).
  apply lift_Ok in Hindex as (ix' & Hindex & Heq). injection Heq as -> ->.
  apply bind_Ok in H as (st1 & w2 & Hmerge & H).
  set (board := match w_fs w1 !! board_json args with
                | Some (Text s) =>
                    match json_loads s with
                    | Some parsed => parsed
                    | None => default_board (isoformat (clock (w_tick w1)))
                    end
                | _ => default_board (isoformat (clock (w_tick w1)))
                end) in *.
  assert (Hboard : board = match board_on_disk json_loads args w with
                           | Some v => v
                           | None => default_board (isoformat (clock (w_tick w1)))
                           end).
  { unfold board, board_on_disk. rewrite Hfs1.
    destruct (w_fs w !! board_json args) as [[s| |]|]; try done. }
  destruct board as [| | | | |d] eqn:Hb; try done.
  apply bind_Ok in H as (upd & w3 & Hupd & H).
  apply now_utc_Ok in Hupd. injection Hupd as -> ->.
  apply bind_Ok in H as (ran & w4 & Hran & H).
  apply now_utc_Ok in Hran. injection Hran as -> ->.
  apply bind_Ok in H as (d' & w5 & Hpush & H).
  apply lift_Ok in Hpush as (d'' & Hpush & Heq). injection Heq as -> ->.
  apply ret_Ok in H. injection H as -> -> -> -> -> -> ->.
  cbn [w_tick w_fs] in *.
  simpl in Hget. injection Hget as Hget.
  assert (Htasks : existing' = tasks_on_disk json_loads args w).
  { unfold tasks_on_disk.
    destruct (board_on_disk json_loads args w) as [v|].
    - subst v. by rewrite <- Hget.
    - rewrite <- Hget. by injection Hboard as ->. }
  pose proof (index_tasks_iter _ _ _ Hiter Hindex) as ->.
  rewrite Hfs1 in Hmerge. rewrite Htasks in *.
  exists ops, w1, d, ix', w2, d''.
  repeat split; try done.
Qed.

Lemma push_history_inv record d d' :
  push_history record d = Ok d' ->
  (forall k, k <> "history" -> dict_get k d' = dict_get k d) /\
  exists h,
    match dict_get "history" d with
    | Some v => v = JArr h
    | None => h = []
    end /\
    dict_get "history" d' = Some (JArr (last_n 50 (h ++ [record]))).
Proof.
  unfold push_history. destruct (dict_get "history" d) as [[| | | |h|]|] eqn:Hh;
    try done; intros [= <-].
  - split; [intros k Hk; by rewrite dict_get_set_ne|].
    exists h. split; [done|]. apply dict_get_set_eq.
  - split; [intros k Hk; by rewrite dict_get_set_ne|].
    exists []. split; [done|]. apply dict_get_set_eq.
Qed.

(** What a successful [reconcile] has done, in terms of the merge. *)
Lemma reconcile_post json_loads clock args feeds w board' st' scanned scored top errors w' :
  reconcile json_loads clock args feeds w
    = Ok ((board', st', (scanned, scored, top, errors)), w') ->
  exists index w1 w2 olds news made paths,
    index_tasks 0 (arr_items (tasks_on_disk json_loads args w)) [] = Ok index /\
    index_ok index (arr_items (tasks_on_disk json_loads args w)) /\
    NoDup (map op_link top) /\
    w_fs w1 = w_fs w /\
    merge_post clock args top
      {| ms_tasks := tasks_on_disk json_loads args w; ms_index := index;
         ms_created := 0; ms_paths := [] |}
      w1 st' w2 olds news made paths /\
    board_tasks board' = olds ++ news /\
    w_fs w' = w_fs w2.
Proof.
  intros H. apply reconcile_inv in H
    as (ops & w1 & d & index & w2 & d' & Hscore & -> & -> & -> & -> & Hd & Htasks
        & Hindex & Hmerge & Hpush & -> & ->).
  destruct (score_all_Ok clock (dedupe [] (fst (collect_feeds feeds))) w)
    as (ops0 & w10 & Hs & Hfs1 & _ & Hsub & _).
  rewrite Hs in Hscore. injection Hscore as -> ->.
  pose proof (index_tasks_ok _ _ Hindex) as Hok.
  assert (Hnd : NoDup (map op_link
            (take_top (max_opportunities args) (sort_opportunities ops)))).
  { eapply top_links_NoDup; [|exact Hsub]. apply dedupe_NoDup. }
  destruct (merge_top_spec _ _ _ _ _ _ _ Hmerge Hok Hnd)
    as (olds & news & made & paths & Hpost).
  exists index, (World (S (w_tick w1)) (w_fs w)), w2, olds, news, made, paths.
  split; [done|]. split; [done|]. split; [done|]. split; [done|].
  split; [done|]. split; [|done].
  apply push_history_inv in Hpush as [Hother _].
  unfold board_tasks. rewrite Hother by done.
  rewrite dict_get_set_ne by done. rewrite dict_get_set_eq.
  apply (mp_items _ _ _ _ _ _ _ _ _ _ _ Hpost).
Qed.

Lemma merge_post_olds_same clock args top st w st' w' olds news made paths i t :
  merge_post clock args top st w st' w' olds news made paths ->
  arr_items (ms_tasks st) !! i = Some t ->
  exists t', olds !! i = Some t' /\ same_task t t' /\ task_link t' = task_link t.
Proof.
  intros Hpost Ht.
  destruct (mp_olds _ _ _ _ _ _ _ _ _ _ _ Hpost i t Ht) as (t' & Hold & Hcase).
  exists t'. split; [done|].
  destruct Hcase as [(op & n & _ & _ & Hr)|[_ ->]].
  - split; [by eapply refresh_task_same | by eapply refresh_task_link].
  - split; [apply same_task_refl | done].
Qed.

Lemma merge_post_olds_links clock args top st w st' w' olds news made paths t' :
  merge_post clock args top st w st' w' olds news made paths ->
  t' ∈ olds ->
  exists t, t ∈ arr_items (ms_tasks st) /\ task_link t' = task_link t.
Proof.
  intros Hpost [i Hi]%list_elem_of_lookup.
  pose proof (lookup_lt_Some _ _ _ Hi) as Hlt.
  rewrite (mp_length _ _ _ _ _ _ _ _ _ _ _ Hpost) in Hlt.
  destruct (lookup_lt_is_Some_2 _ _ Hlt) as [t Ht].
  destruct (merge_post_olds_same _ _ _ _ _ _ _ _ _ _ _ _ _ Hpost Ht)
    as (t'' & Hold & _ & Hl).
  exists t. split; [by eapply list_elem_of_lookup_2|]. congruence.
Qed.

Lemma unseen_sublist index top : (unseen index top) `sublist_of` top.
Proof.
  unfold unseen. induction top as [|op top IH]; simpl; [constructor|].
  destruct (negb _); [by apply sublist_skip | by apply sublist_cons].
Qed.

Lemma take_drop_distinct {A B} (f : A -> B) (l : list A) n x y :
  NoDup (map f l) -> x ∈ take n l -> y ∈ drop n l -> f x <> f y.
Proof.
  intros Hnd Hx Hy Heq.
  rewrite <- (take_drop n l) in Hnd. rewrite map_app in Hnd.
  apply NoDup_app in Hnd as (_ & Hdisj & _).
  apply (Hdisj (f x)).
  - by apply (list_elem_of_fmap_2 f).
  - rewrite Heq. by apply (list_elem_of_fmap_2 f).
Qed.

Lemma made_unseen clock args top st w st' w' olds news made paths op :
  merge_post clock args top st w st' w' olds news made paths ->
  op ∈ made ->
  op ∈ top /\ dict_get (link (item op)) (ms_index st) = None.
Proof.
  intros Hpost Hin. rewrite (mp_made _ _ _ _ _ _ _ _ _ _ _ Hpost) in Hin.
  apply unseen_elem. eapply elem_of_sublist; [exact Hin|]. apply sublist_take.
Qed.

Lemma index_miss_no_task index tasks k t :
  index_ok index tasks -> dict_get k index = None -> t ∈ tasks ->
  task_link t <> Some k.
Proof. intros Hok Hk. specialize (Hok k). rewrite Hk in Hok. apply Hok. Qed.

Lemma index_hit_last index tasks k i t :
  index_ok index tasks -> tasks !! i = Some t -> task_link t = Some k ->
  (forall j t2, (i < j)%nat -> tasks !! j = Some t2 -> task_link t2 <> Some k) ->
  dict_get k index = Some i.
Proof.
  intros Hok Ht Hl Hlast. specialize (Hok k).
  destruct (dict_get k index) as [j|].
  - destruct Hok as [(tj & Htj & Hlj) Hlastj].
    destruct (Nat.lt_trichotomy i j) as [Hlt|[->|Hgt]]; [|done|].
    + exfalso. by eapply Hlast.
    + exfalso. by eapply Hlastj.
  - exfalso. eapply Hok; [|done]. by eapply list_elem_of_lookup_2.
Qed.

Example ex_reconcile_result :
  match ex_reconcile with
  | Ok ((board', st', (scanned, scored, top, errors)), w') =>
      map op_link top = [ "https://c.example.com/3"; "https://example.com/pricing";
                          "https://b.example.com/2" ] /\
      map task_link (board_tasks board')
        = [ Some "https://example.com/pricing"; Some "https://c.example.com/3" ] /\
      ms_created st' = 1 /\ scanned = 3%nat
  | Raise _ => False
  end.
Proof. vm_compute. repeat split; reflexivity. Qed.

(** ** Properties of the reconciliation *)

Section ReconcileFacts.

Context (json_loads : string -> option json) (clock : nat -> Z).
Context (args : Args) (feeds : Feeds) (w : world).
Context (board' : json) (st' : MergeState) (scanned scored : nat).
Context (top : list Opportunity) (errors : list string) (w' : world).

Hypothesis Hrun :
  reconcile json_loads clock args feeds w
    = Ok ((board', st', (scanned, scored, top, errors)), w').

(** X1. Reconciliation never deletes or reorders tasks. The task list of the
    new board is the list found on disk, position by position, followed by
    the tasks created in this run: a task of the old list keeps its position,
    its link and every field other than the four refreshed ones, and every
    appended task carries the link of a top opportunity that no old task
    had. *)
Theorem reconcile_keeps_tasks :
  let old := arr_items (tasks_on_disk json_loads args w) in
  exists olds news,
    board_tasks board' = olds ++ news /\
    length olds = length old /\
    (forall i t, old !! i = Some t ->
       exists t', olds !! i = Some t' /\ same_task t t' /\
                  task_link t' = task_link t) /\
    Z.of_nat (length news) = ms_created st' /\
    Forall (fun t => exists op, op ∈ top /\
                       task_link t = Some (link (item op)) /\
                       forall t0, t0 ∈ old -> task_link t0 <> task_link t) news.
Proof.
  intros old.
  destruct (reconcile_post _ _ _ _ _ _ _ _ _ _ _ _ Hrun)
    as (index & w1 & w2 & olds & news & made & paths
        & Hindex & Hok & Hnd & Hfs1 & Hpost & Htasks & Hfs).
  exists olds, news. split; [done|].
  split; [apply (mp_length _ _ _ _ _ _ _ _ _ _ _ Hpost)|].
  split; [intros i t Ht; by eapply merge_post_olds_same|].
  pose proof (mp_news _ _ _ _ _ _ _ _ _ _ _ Hpost) as Hnews.
  split.
  - rewrite (mp_created _ _ _ _ _ _ _ _ _ _ _ Hpost). simpl.
    by rewrite (Forall2_length _ _ _ Hnews).
  - apply Forall_forall. intros t [j Hj]%list_elem_of_lookup.
    destruct (Forall2_lookup_r _ _ _ _ _ Hnews Hj)
      as (op & Hop & n1 & n2 & n3 & ->).
    apply list_elem_of_lookup_2 in Hop.
    destruct (made_unseen _ _ _ _ _ _ _ _ _ _ _ _ Hpost Hop) as [Hin Hmiss].
    exists op. split; [done|]. split; [apply task_link_new_task|].
    intros t0 Ht0. rewrite task_link_new_task.
    by eapply index_miss_no_task.
Qed.

(** X2. The refresh. When a top opportunity carries the link of a task on
    disk (the last task with that link, should several share it), the new
    board holds at the same position a task whose [score], [matched_terms],
    [action_plan] and [updated_at] are those of the opportunity and of a
    reading of the clock, and whose other fields, among them [status],
    [priority], [ticket_path] and [owner], are what they were. *)
Theorem reconcile_refreshes_task (i : nat) (t : json) (op : Opportunity) :
  let old := arr_items (tasks_on_disk json_loads args w) in
  old !! i = Some t ->
  op ∈ top ->
  task_link t = Some (link (item op)) ->
  (forall j t2, (i < j)%nat -> old !! j = Some t2 ->
     task_link t2 <> Some (link (item op))) ->
  exists d d' n,
    t = JObj d /\ board_tasks board' !! i = Some (JObj d') /\
    dict_get "score" d' = Some (JInt (score op)) /\
    dict_get "matched_terms" d' = Some (JArr (map JStr (matched_terms op))) /\
    dict_get "action_plan" d' = Some (build_action_plan op) /\
    dict_get "updated_at" d' = Some (JStr (isoformat (clock n))) /\
    (forall k, k ∉ refreshed_fields -> dict_get k d' = dict_get k d).
Proof.
  intros old Ht Hop Hlink Hlast.
  destruct (reconcile_post _ _ _ _ _ _ _ _ _ _ _ _ Hrun)
    as (index & w1 & w2 & olds & news & made & paths
        & Hindex & Hok & Hnd & Hfs1 & Hpost & Htasks & Hfs).
  pose proof (index_hit_last _ _ _ _ _ Hok Ht Hlink Hlast) as Hhit.
  destruct (mp_olds _ _ _ _ _ _ _ _ _ _ _ Hpost i t Ht) as (t' & Hold & Hcase).
  destruct Hcase as [(op' & n & Hin' & Hhit' & Hr)|[Hnone _]];
    [|by exfalso; eapply Hnone].
  assert (op' = op) as ->.
  { eapply NoDup_op_link; [exact Hnd|done..|].
    eapply index_ok_inj; [exact Hok|exact Hhit'|exact Hhit]. }
  destruct t as [| | | | |d]; try done.
  rewrite refresh_task_obj in Hr. injection Hr as <-.
  eexists d, _, n. split; [done|].
  split; [rewrite Htasks; by apply lookup_app_l_Some|].
  split; [rewrite ?dict_get_set_ne by done; apply dict_get_set_eq|].
  split; [rewrite ?dict_get_set_ne by done; apply dict_get_set_eq|].
  split; [rewrite ?dict_get_set_ne by done; apply dict_get_set_eq|].
  split; [rewrite ?dict_get_set_ne by done; apply dict_get_set_eq|].
  intros k Hk.
  assert (Hsame : same_task (JObj d)
            (JObj (dict_set "action_plan" (build_action_plan op)
                     (dict_set "matched_terms" (terms_json op)
                        (dict_set "score" (JInt (score op))
                           (dict_set "updated_at" (JStr (isoformat (clock n))) d))))))
    by (by eapply refresh_task_same).
  by apply Hsame.
Qed.

(** X3. The budget of new tickets. With [fresh] the top opportunities, in
    rank order, whose link the index of the tasks on disk does not have (no
    task on disk carries it), the run creates a task for the first
    [max(0, max_new_tickets)] of them and for no other: the counter and the
    list of ticket paths have that length, the appended tasks carry their
    links in that order, and no task of the new board carries the link of
    one of the others, which the next run will again find missing. *)
Theorem reconcile_budget :
  let old := arr_items (tasks_on_disk json_loads args w) in
  exists index,
    index_tasks 0 old [] = Ok index /\
    let fresh := unseen index top in
    let made := take (Z.to_nat (budget args)) fresh in
    (forall op, op ∈ fresh <->
       op ∈ top /\ forall t, t ∈ old -> task_link t <> Some (link (item op))) /\
    ms_created st' = Z.of_nat (length made) /\
    (length made = Nat.min (Z.to_nat (budget args)) (length fresh)) /\
    length (ms_paths st') = length made /\
    map task_link (drop (length old) (board_tasks board'))
      = map (fun op => Some (link (item op))) made /\
    (forall op t, op ∈ drop (Z.to_nat (budget args)) fresh ->
       t ∈ board_tasks board' -> task_link t <> Some (link (item op))).
Proof.
  intros old.
  destruct (reconcile_post _ _ _ _ _ _ _ _ _ _ _ _ Hrun)
    as (index & w1 & w2 & olds & news & made & paths
        & Hindex & Hok & Hnd & Hfs1 & Hpost & Htasks & Hfs).
  exists index. split; [done|]. cbv zeta.
  pose proof (mp_made _ _ _ _ _ _ _ _ _ _ _ Hpost) as Hmade.
  unfold room in Hmade. cbn [ms_created ms_index] in Hmade.
  rewrite Z.sub_0_r in Hmade. rewrite <- Hmade.
  split.
  { intros op. rewrite unseen_elem. split.
    - intros [Hin Hmiss]. split; [done|]. intros t Ht.
      by eapply index_miss_no_task.
    - intros [Hin Hnone]. split; [done|].
      destruct (dict_get (link (item op)) index) as [j|] eqn:Hj; [|done].
      destruct (index_ok_bound _ _ _ _ Hok Hj) as (d & Hd & Hl).
      exfalso. eapply Hnone; [|exact Hl]. by eapply list_elem_of_lookup_2. }
  split; [apply (mp_created _ _ _ _ _ _ _ _ _ _ _ Hpost)|].
  split; [rewrite Hmade; apply length_take|].
  pose proof (mp_paths _ _ _ _ _ _ _ _ _ _ _ Hpost) as Hpaths.
  pose proof (mp_paths_made _ _ _ _ _ _ _ _ _ _ _ Hpost) as Hpm.
  pose proof (mp_news _ _ _ _ _ _ _ _ _ _ _ Hpost) as Hnews.
  pose proof (mp_length _ _ _ _ _ _ _ _ _ _ _ Hpost) as Hlen.
  cbn [ms_paths ms_tasks] in Hpaths, Hlen.
  split; [rewrite Hpaths; simpl; symmetry; by eapply Forall2_length|].
  split.
  { rewrite Htasks. fold old in Hlen. rewrite <- Hlen.
    rewrite drop_app_length.
    clear -Hnews. induction Hnews as [|op t made news (n1 & n2 & n3 & ->) _ IH];
      [done|]. simpl. by rewrite IH. }
  intros op t Hop Ht.
  assert (Hfresh : op ∈ unseen index top)
    by (eapply elem_of_sublist; [exact Hop|apply sublist_drop]).
  apply unseen_elem in Hfresh as [Hin Hmiss].
  eapply index_miss_no_task;
    [apply (mp_index_ok _ _ _ _ _ _ _ _ _ _ _ Hpost)| |].
  - apply (mp_index_new _ _ _ _ _ _ _ _ _ _ _ Hpost); [done|].
    intros op' Hop' Heq. rewrite Hmade in Hop'.
    eapply (take_drop_distinct op_link); [|exact Hop'|exact Hop|exact Heq].
    eapply sublist_NoDup; [exact Hnd|].
    apply (fmap_sublist op_link), unseen_sublist.
  - rewrite (mp_items _ _ _ _ _ _ _ _ _ _ _ Hpost). by rewrite <- Htasks.
Qed.

(** X4. Caps that are zero or negative. With [max_new_tickets <= 0] the run
    creates no task and no ticket and leaves every file as it was; with
    [max_opportunities <= 0] there is no top opportunity at all and the task
    list of the new board is the one found on disk. *)
Theorem reconcile_nonpositive_caps :
  let old := arr_items (tasks_on_disk json_loads args w) in
  (max_new_tickets args <= 0 ->
     ms_created st' = 0 /\ ms_paths st' = [] /\
     length (board_tasks board') = length old /\ w_fs w' = w_fs w) /\
  (max_opportunities args <= 0 ->
     top = [] /\ board_tasks board' = old /\ ms_created st' = 0 /\
     ms_paths st' = [] /\ w_fs w' = w_fs w).
Proof.
  intros old.
  pose proof (reconcile_inv _ _ _ _ _ _ _ _ _ _ _ _ Hrun)
    as (ops & _ & _ & _ & _ & _ & _ & Htop & _).
  destruct (reconcile_post _ _ _ _ _ _ _ _ _ _ _ _ Hrun)
    as (index & w1 & w2 & olds & news & made & paths
        & Hindex & Hok & Hnd & Hfs1 & Hpost & Htasks & Hfs).
  pose proof (mp_made _ _ _ _ _ _ _ _ _ _ _ Hpost) as Hmade.
  pose proof (mp_created _ _ _ _ _ _ _ _ _ _ _ Hpost) as Hcreated.
  pose proof (mp_paths _ _ _ _ _ _ _ _ _ _ _ Hpost) as Hpaths.
  pose proof (mp_paths_made _ _ _ _ _ _ _ _ _ _ _ Hpost) as Hpm.
  pose proof (mp_news _ _ _ _ _ _ _ _ _ _ _ Hpost) as Hnews.
  pose proof (mp_length _ _ _ _ _ _ _ _ _ _ _ Hpost) as Hlen.
  pose proof (mp_fs_same _ _ _ _ _ _ _ _ _ _ _ Hpost) as Hsame.
  unfold room in Hmade. cbn [ms_created ms_index ms_paths ms_tasks] in *.
  assert (Hnone : made = [] ->
            ms_created st' = 0 /\ ms_paths st' = [] /\
            length (board_tasks board') = length old /\ w_fs w' = w_fs w /\
            news = []).
  { intros ->. apply Forall2_nil_inv_l in Hnews as ->.
    apply Forall2_nil_inv_l in Hpm as ->.
    rewrite Hcreated, Hpaths, Htasks, Hfs, Hsame, app_nil_r by done.
    rewrite Hfs1, length_app, Hlen. subst old. simpl. repeat split; lia. }
  split.
  - intros Hcap. destruct Hnone as (? & ? & ? & ? & _); [|done].
    rewrite Hmade. unfold budget.
    replace (Z.to_nat (0 `max` max_new_tickets args - 0)) with 0%nat by lia.
    apply take_0.
  - intros Hcap.
    assert (Hempty : top = []).
    { rewrite Htop. unfold take_top.
      replace (Z.to_nat (0 `max` max_opportunities args)) with 0%nat by lia.
      apply take_0. }
    destruct Hnone as (? & ? & ? & ? & ->).
    { rewrite Hmade, Hempty. unfold unseen. simpl. apply take_nil. }
    repeat split; try done.
    rewrite Htasks, app_nil_r.
    apply list_eq_same_length with (length old); [done..|].
    intros i t' t Hi Hold Ht.
    destruct (mp_olds _ _ _ _ _ _ _ _ _ _ _ Hpost i t Ht) as (t'' & Hold' & Hcase).
    destruct Hcase as [(op & n & Hin & _)|[_ ->]]; [|congruence].
    rewrite Hempty in Hin. by apply elem_of_nil in Hin.
Qed.

(** X5. The only files the reconciliation touches are the tickets of the
    tasks it creates: every other path keeps what it had, and every path of
    the list of created tickets holds the ticket text of a created
    opportunity afterwards. *)
Theorem reconcile_writes_tickets_only :
  (forall path, path ∉ ms_paths st' -> w_fs w' !! path = w_fs w !! path) /\
  (forall path, path ∈ ms_paths st' ->
     exists op, op ∈ top /\
       w_fs w' !! path = Some (Text (create_ticket_content op))).
Proof.
  destruct (reconcile_post _ _ _ _ _ _ _ _ _ _ _ _ Hrun)
    as (index & w1 & w2 & olds & news & made & paths
        & Hindex & Hok & Hnd & Hfs1 & Hpost & Htasks & Hfs).
  pose proof (mp_paths _ _ _ _ _ _ _ _ _ _ _ Hpost) as Hpaths.
  cbn [ms_paths] in Hpaths. simpl in Hpaths. subst paths.
  split.
  - intros path Hpath. rewrite Hfs, <- Hfs1.
    by apply (mp_fs_other _ _ _ _ _ _ _ _ _ _ _ Hpost).
  - intros path Hpath.
    destruct (mp_fs_paths _ _ _ _ _ _ _ _ _ _ _ Hpost path Hpath)
      as (op & Hop & Hfile).
    exists op. split; [|by rewrite Hfs].
    by destruct (made_unseen _ _ _ _ _ _ _ _ _ _ _ _ Hpost Hop).
Qed.

(** X6. No duplicate work items. If no two tasks on disk share a link, no
    two tasks of the new board do. *)
Theorem reconcile_keeps_links_unique :
  let old := arr_items (tasks_on_disk json_loads args w) in
  (forall i j ti tj, old !! i = Some ti -> old !! j = Some tj ->
     is_Some (task_link ti) -> task_link ti = task_link tj -> i = j) ->
  forall i j ti tj,
    board_tasks board' !! i = Some ti -> board_tasks board' !! j = Some tj ->
    is_Some (task_link ti) -> task_link ti = task_link tj -> i = j.
Proof.
  intros old Huniq.
  destruct (reconcile_post _ _ _ _ _ _ _ _ _ _ _ _ Hrun)
    as (index & w1 & w2 & olds & news & made & paths
        & Hindex & Hok & Hnd & Hfs1 & Hpost & Htasks & Hfs).
  pose proof (mp_news _ _ _ _ _ _ _ _ _ _ _ Hpost) as Hnews.
  pose proof (mp_length _ _ _ _ _ _ _ _ _ _ _ Hpost) as Hlen.
  cbn [ms_tasks] in Hlen. fold old in Hlen.
  rewrite Htasks.
  (* the link of a task of [olds] is the link of the old task at its place *)
  assert (Holds : forall i t', olds !! i = Some t' ->
            exists t, old !! i = Some t /\ task_link t' = task_link t).
  { intros i t' Hi. pose proof (lookup_lt_Some _ _ _ Hi) as Hlt.
    rewrite Hlen in Hlt. destruct (lookup_lt_is_Some_2 _ _ Hlt) as [t Ht].
    destruct (merge_post_olds_same _ _ _ _ _ _ _ _ _ _ _ _ _ Hpost Ht)
      as (t'' & Hold & _ & Hl).
    exists t. split; [done|]. congruence. }
  (* the link of a new task is that of the opportunity made at its place *)
  assert (Hnew : forall i t', news !! i = Some t' ->
            exists op, made !! i = Some op /\ task_link t' = Some (link (item op))).
  { intros i t' Hi.
    destruct (Forall2_lookup_r _ _ _ _ _ Hnews Hi)
      as (op & Hop & n1 & n2 & n3 & ->).
    exists op. split; [done|]. apply task_link_new_task. }
  assert (Hmade_nd : NoDup (map op_link made)).
  { rewrite (mp_made _ _ _ _ _ _ _ _ _ _ _ Hpost).
    eapply sublist_NoDup; [exact Hnd|].
    apply (fmap_sublist op_link). etransitivity; [apply sublist_take|].
    apply unseen_sublist. }
  assert (Hcross : forall i j ti tj, olds !! i = Some ti -> news !! j = Some tj ->
            task_link ti <> task_link tj).
  { intros i j ti tj Hi Hj Heq.
    destruct (Holds _ _ Hi) as (t & Ht & Hl).
    destruct (Hnew _ _ Hj) as (op & Hop & Hl').
    apply list_elem_of_lookup_2 in Hop.
    destruct (made_unseen _ _ _ _ _ _ _ _ _ _ _ _ Hpost Hop) as [_ Hmiss].
    eapply (index_miss_no_task _ _ _ t Hok Hmiss);
      [by eapply list_elem_of_lookup_2|]. congruence. }
  intros i j ti tj Hi Hj Hsome Heq.
  apply lookup_app_Some in Hi as [Hi|[Hige Hi]];
    apply lookup_app_Some in Hj as [Hj|[Hjge Hj]].
  - destruct (Holds _ _ Hi) as (t1 & Ht1 & Hl1).
    destruct (Holds _ _ Hj) as (t2 & Ht2 & Hl2).
    eapply Huniq; [exact Ht1|exact Ht2| |]; congruence.
  - exfalso. by eapply Hcross.
  - exfalso. eapply Hcross; [exact Hj|exact Hi|done].
  - destruct (Hnew _ _ Hi) as (op1 & Hop1 & Hl1).
    destruct (Hnew _ _ Hj) as (op2 & Hop2 & Hl2).
    assert (i - length olds = j - length olds)%nat; [|lia].
    eapply NoDup_lookup; [exact Hmade_nd| |].
    + rewrite list_lookup_fmap, Hop1. done.
    + rewrite list_lookup_fmap, Hop2. simpl. unfold op_link. congruence.
Qed.

End ReconcileFacts.

Lemma reconcile_keeps_tasks_witness :
  exists board' olds news,
    (exists st' r w', ex_reconcile = Ok ((board', st', r), w')) /\
    board_tasks board' = olds ++ news /\
    length olds = 1%nat /\ length news = 1%nat.
Proof.
  destruct ex_reconcile as [[[[board' st'] [[[scanned scored] top] errors]] w']|e]
    eqn:Hrun; [|vm_compute in Hrun; discriminate].
  destruct (reconcile_keeps_tasks _ _ _ _ _ _ _ _ _ _ _ _ Hrun)
    as (olds & news & Htasks & Hlen & _ & Hnews & _).
  exists board', olds, news. split; [by eexists _, _, _|].
  split; [done|]. split.
  - rewrite Hlen. reflexivity.
  - assert (ms_created st' = 1) as Hc.
    { unfold ex_reconcile in Hrun. vm_compute in Hrun. by injection Hrun as _ <- _. }
    lia.
Defined.

Lemma ex_tasks_on_disk :
  arr_items (tasks_on_disk JsonReader.loads ex_args_one ex_world) = [ex_task_done].
Proof. vm_compute. reflexivity. Qed.

Lemma reconcile_refreshes_task_witness :
  exists board' d',
    (exists st' r w', ex_reconcile = Ok ((board', st', r), w')) /\
    board_tasks board' !! 0%nat = Some (JObj d') /\
    dict_get "status" d' = Some (JStr "done") /\
    dict_get "priority" d' = Some (JStr "P3") /\
    dict_get "owner" d' = Some (JStr "alice") /\
    dict_get "ticket_path" d' = Some (JStr "tickets/market/launch.md") /\
    dict_get "score" d' = Some (JInt 4).
Proof.
  destruct ex_reconcile as [[[[board' st'] [[[scanned scored] top] errors]] w']|e]
    eqn:Hrun; [|vm_compute in Hrun; discriminate].
  assert (Htop : ex_op_pricing ∈ top).
  { pose proof Hrun as Hval. vm_compute in Hval.
    injection Hval as _ _ _ _ <- _ _.
    apply list_elem_of_In. right. left. reflexivity. }
  destruct (reconcile_refreshes_task _ _ _ _ _ _ _ _ _ _ _ _ Hrun
              0%nat ex_task_done ex_op_pricing)
    as (d & d' & n & Ht & Hnew & Hscore & _ & _ & _ & Hframe).
  - by rewrite ex_tasks_on_disk.
  - exact Htop.
  - reflexivity.
  - intros j t2 Hj Ht2. rewrite ex_tasks_on_disk in Ht2.
    destruct j; [lia|done].
  - injection Ht as <-.
    assert (Hkeep : forall k, k ∉ refreshed_fields ->
              dict_get k d' = dict_get k
                [ ("id", JStr "mr-8fa3bf203e");
                  ("title", JStr "Launch week");
                  ("status", JStr "done");
                  ("priority", JStr "P3");
                  ("owner", JStr "alice");
                  ("score", JInt 1);
                  ("source", JObj [("link", JStr "https://example.com/pricing")]);
                  ("ticket_path", JStr "tickets/market/launch.md");
                  ("created_at", JStr "2023-01-01T00:00:00+00:00");
                  ("note", JStr "keep") ]) by exact Hframe.
    exists board', d'. split; [by eexists _, _, _|]. split; [done|].
    repeat split.
    + rewrite Hkeep; [reflexivity|].
      intros Hin%list_elem_of_In. simpl in Hin. intuition discriminate.
    + rewrite Hkeep; [reflexivity|].
      intros Hin%list_elem_of_In. simpl in Hin. intuition discriminate.
    + rewrite Hkeep; [reflexivity|].
      intros Hin%list_elem_of_In. simpl in Hin. intuition discriminate.
    + rewrite Hkeep; [reflexivity|].
      intros Hin%list_elem_of_In. simpl in Hin. intuition discriminate.
    + exact Hscore.
Defined.
